(** * Sentinel-2 composite download script: model and properties

    Shallow embedding of [src/download-data-test/main.py].  The script is a
    client of the Earth Engine platform: its own code is the cloud mask
    function [maskS2clouds], the chain of collection operations, the export
    request, the authentication fallback and the polling loop.  The platform
    operations the script calls ([bitwiseAnd], [updateMask], [divide],
    [median], ...) are given the per-pixel meaning the specification
    describes, and the remote services (catalog queries, authentication, the
    export job) are an explicit environment that answers each call. *)

From stdpp Require Import base option list strings gmap sorting.
From Stdlib Require Import ZArith QArith Lia.

Local Open Scope string_scope.
Local Open Scope list_scope.
Local Open Scope Z_scope.

(** ** Rasters *)

(** A pixel position on the raster grid. *)
Definition pixel : Type := (Z * Z)%type.

(** One band of an image: a value at every position and the validity mask
    ([true] = the pixel is retained). *)
Record band (V : Type) : Type := Band {
  band_value : pixel -> V;
  band_mask : pixel -> bool
}.
Arguments Band {V} _ _.
Arguments band_value {V} _ _.
Arguments band_mask {V} _ _.

(** An image is its ordered list of named bands. *)
Definition image (V : Type) : Type := list (string * band V).

Definition band_names {V} (img : image V) : list string := img.*1.

Fixpoint find_band {V} (name : string) (img : image V) : option (band V) :=
  match img with
  | [] => None
  | (n, b) :: rest => if String.eqb n name then Some b else find_band name rest
  end.

(** What an observer reads at a position of a band: [None] is no-data (the
    band is absent or the pixel is masked). *)
Definition pixel_value {V} (img : image V) (name : string) (p : pixel) : option V :=
  match find_band name img with
  | Some b => if band_mask b p then Some (band_value b p) else None
  | None => None
  end.

(** The validity mask read the same way: an absent band is valid nowhere. *)
Definition pixel_valid {V} (img : image V) (name : string) (p : pixel) : bool :=
  match find_band name img with
  | Some b => band_mask b p
  | None => false
  end.

(** ** Per-pixel meaning of the platform's image operators

    The operators are the platform's; the script composes them.  Their
    meaning at one pixel is the one the specification's formula
    [valid = ((qa & (1<<10)) == 0) AND ((qa & (1<<11)) == 0)] and its
    rescaling contract give them.  Pixel values are exact rationals: the
    rounding of the platform's floating-point division is outside the
    model. *)

Module Px.

(** [bitwiseAnd]: bitwise AND of two integer pixel values. *)
Definition bitwiseAnd (a b : Z) : Z := Z.land a b.

(** [eq]: 1 when the values are equal, 0 otherwise. *)
Definition eq (a b : Z) : Z := if a =? b then 1 else 0.

(** [And]: 1 when both values are non-zero, 0 otherwise. *)
Definition And (a b : Z) : Z := if (a =? 0) || (b =? 0) then 0 else 1.

(** [divide]: the quotient, as a rational. *)
Definition divide (a : Z) (d : Z) : Q := (inject_Z a / inject_Z d)%Q.

(** A mask value retains a pixel when it is non-zero. *)
Definition retains (m : Z) : bool := negb (m =? 0).

End Px.

(** ** Image operators *)

Module Image.

(** Modelled from the spec: the platform's band selection is not part of the
    repository; it keeps the requested bands in the requested order and
    fails ("missing band") when one is absent. *)
Fixpoint select {V} (img : image V) (names : list string) : option (image V) :=
  match names with
  | [] => Some []
  | n :: rest =>
      match find_band n img, select img rest with
      | Some b, Some bs => Some ((n, b) :: bs)
      | _, _ => None
      end
  end.

(** The same change made to every band, names and order kept. *)
Definition on_bands {V W} (g : band V -> band W) (img : image V) : image W :=
  (fun nb : string * band V => (nb.1, g nb.2)) <$> img.

(** An operator with a constant right operand acts on every band, pixel by
    pixel, and leaves the mask as it is. *)
Definition map_values {V W} (f : V -> W) (img : image V) : image W :=
  on_bands (fun b => Band (fun p => f (band_value b p)) (band_mask b)) img.

Definition bitwiseAnd (img : image Z) (c : Z) : image Z :=
  map_values (fun v => Px.bitwiseAnd v c) img.

Definition eq (img : image Z) (c : Z) : image Z :=
  map_values (fun v => Px.eq v c) img.

Definition divide (img : image Z) (c : Z) : image Q :=
  map_values (fun v => Px.divide v c) img.

(** A binary operator pairs the bands of its operands by position; a pixel of
    the result is valid where it is valid in both. *)
Definition zip_bands (f : Z -> Z -> Z) (a b : image Z) : image Z :=
  zip_with (fun x y : string * band Z =>
    (x.1, Band (fun p => f (band_value x.2 p) (band_value y.2 p))
               (fun p => band_mask x.2 p && band_mask y.2 p))) a b.

Definition And (a b : image Z) : image Z := zip_bands Px.And a b.

(** Modelled from the spec: the platform's [updateMask] is not part of the
    repository; pixels failing the mask are marked invalid in the image's
    mask, and pixels already invalid stay invalid.  A masked pixel of the
    mask image retains nothing. *)
Definition mask_band {V} (m : band Z) (b : band V) : band V :=
  Band (band_value b)
       (fun p => band_mask b p && band_mask m p && Px.retains (band_value m p)).

(** [updateMask] with a one-band mask applies it to every band of the image;
    with several bands the mask is applied band by band. *)
Definition updateMask {V} (img : image V) (mask : image Z) : image V :=
  match mask with
  | [(_, m)] => on_bands (mask_band m) img
  | _ => zip_with (fun (nb : string * band V) (mb : string * band Z) =>
                     (nb.1, mask_band mb.2 nb.2)) img mask
  end.

End Image.

(** ** The script's cloud mask (lines 43-57) *)

Definition cloudBitMask : Z := Z.shiftl 1 10.
Definition cirrusBitMask : Z := Z.shiftl 1 11.

(** The value of [mask] at a pixel whose QA60 value is [qa]. *)
Definition cloud_mask_value (qa : Z) : Z :=
  Px.And (Px.eq (Px.bitwiseAnd qa cloudBitMask) 0)
         (Px.eq (Px.bitwiseAnd qa cirrusBitMask) 0).

(** The mask predicate: does a pixel with quality bits [qa] stay valid? *)
Definition cloud_free (qa : Z) : bool := Px.retains (cloud_mask_value qa).

(** Lines 52-53: the image [mask] computed from the quality band. *)
Definition cloud_mask (qa : image Z) : image Z :=
  Image.And (Image.eq (Image.bitwiseAnd qa cloudBitMask) 0)
            (Image.eq (Image.bitwiseAnd qa cirrusBitMask) 0).

(** What [updateMask] with that mask makes of a band [b] when the quality
    band is [qa]: the values stay, the mask is narrowed. *)
Definition masked_band (qa b : band Z) : band Z :=
  Band (band_value b)
       (fun p => band_mask b p && (band_mask qa p && band_mask qa p)
                 && cloud_free (band_value qa p)).

Definition maskS2clouds (img : image Z) : option (image Q) :=
  qa ← Image.select img ["QA60"];
  Some (Image.divide (Image.updateMask img (cloud_mask qa)) 10000).

(** ** Geometry

    The client builds a geometry as an expression: a point given by its
    longitude and latitude in degrees, the buffer of a geometry by a distance
    in metres, the bounds of a geometry.  What region of the Earth an
    expression denotes is computed by the platform's geodesic engine and is
    not interpreted here; the script only forms the expressions and hands
    them to [filterBounds] and to the export request. *)

Module Geometry.

Inductive t : Type :=
  | Point (longitude latitude : Q)
  | Buffer (g : t) (distance : Q)
  | Bounds (g : t).

(** [g.buffer(distance)], the distance in metres. *)
Definition buffer (g : t) (distance : Q) : t := Buffer g distance.

(** [g.bounds()]. *)
Definition bounds (g : t) : t := Bounds g.

End Geometry.

(** ** Image collections *)

(** The metadata the script's filters read: acquisition time, footprint and
    numeric properties by name. *)
Record properties : Type := Properties {
  time_start : Z;
  footprint : Geometry.t;
  numbers : gmap string Q
}.

Record scene (V : Type) : Type := Scene {
  scene_props : properties;
  scene_image : image V
}.
Arguments Scene {V} _ _.
Arguments scene_props {V} _.
Arguments scene_image {V} _.

Abbreviation collection V := (list (scene V)).

(** What the script leaves to the platform: the catalog behind a collection
    name, whether an acquisition time lies in a range of two date strings
    (the end-point convention is the platform's), and whether two geometries
    intersect. *)
Class Platform : Type := {
  load : string -> collection Z;
  date_in_range : string -> string -> Z -> bool;
  intersects : Geometry.t -> Geometry.t -> bool
}.

Definition Qltb (x y : Q) : bool := negb (Qle_bool y x).

Module Filter.

Inductive t : Type :=
  | lt (name : string) (value : Q).

(** [lt name value] accepts the images whose property [name] is present and
    strictly less than [value]. *)
Definition accepts (f : t) (pr : properties) : bool :=
  match f with
  | lt name value =>
      match numbers pr !! name with
      | Some x => Qltb x value
      | None => false
      end
  end.

End Filter.

#[local] Instance Qle_dec (x y : Q) : Decision (x <= y)%Q.
Proof.
  destruct (Qlt_le_dec y x) as [H | H].
  - right. apply Qlt_not_le, H.
  - left. exact H.
Defined.

(** Modelled from the spec: the platform's median reducer is not part of the
    repository; the median of a list of values is the middle value of their
    sorted arrangement, for an even count the average of the two middle
    values, and nothing for no value. *)
Definition median_of (xs : list Q) : option Q :=
  let s := merge_sort Qle xs in
  let n := length s in
  match n with
  | O => None
  | _ =>
      if Nat.even n
      then Some ((nth (n / 2 - 1) s 0 + nth (n / 2) s 0) / 2)%Q
      else Some (nth (n / 2) s 0%Q)
  end.

Module ImageCollection.

(** Modelled from the spec: the platform's collection filters are not part
    of the repository; each keeps, in the order of the input, the images that
    pass its test. *)
Section Filters.
Context `{Platform}.

Definition filterDate {V} (c : collection V) (start stop : string) : collection V :=
  filter (fun s => date_in_range start stop (time_start (scene_props s)) = true) c.

Definition filterBounds {V} (c : collection V) (g : Geometry.t) : collection V :=
  filter (fun s => intersects (footprint (scene_props s)) g = true) c.

End Filters.

Definition filter {V} (c : collection V) (f : Filter.t) : collection V :=
  base.filter (fun s => Filter.accepts f (scene_props s) = true) c.

(** [map] applies the function to every image, in order, keeping each
    image's metadata; it fails when the function fails on an image. *)
Definition map {V W} (c : collection V) (f : image V -> option (image W))
  : option (collection W) :=
  mapM (fun s => Scene (scene_props s) <$> f (scene_image s)) c.

Definition select {V} (c : collection V) (names : list string)
  : option (collection V) :=
  map c (fun img => Image.select img names).

(** The values of band [name] at [p] over the images where that pixel is
    valid, in collection order. *)
Definition valid_values (c : collection Q) (name : string) (p : pixel) : list Q :=
  omap (fun s => pixel_value (scene_image s) name p) c.

(** Modelled from the spec: the platform's [median] of a collection is not
    part of the repository; the composite has, for every band and every
    position independently, the median of the values over the images where
    the pixel is valid, and no-data where it is valid in none.  The bands are
    those of the first image; an empty collection gives an image with no band,
    so no-data everywhere. *)
Definition median (c : collection Q) : image Q :=
  match c with
  | [] => []
  | first :: _ =>
      (fun name =>
         (name, Band (fun p => default 0%Q (median_of (valid_values c name p)))
                     (fun p => bool_decide (valid_values c name p <> []))))
      <$> band_names (scene_image first)
  end.

End ImageCollection.

(** ** The script's constants and collection chain (lines 21-81) *)

Definition base_longitude : Q := 26102857 # 1000000.
Definition base_latitude : Q := 44427597 # 1000000.
Definition aoi_point : Geometry.t := Geometry.Point base_longitude base_latitude.
Definition aoi_region : Geometry.t := Geometry.buffer aoi_point 5000.

Definition START_DATE : string := "2023-01-01".
Definition END_DATE : string := "2023-12-31".
Definition MAX_CLOUD_PERCENTAGE : Q := 20.

Definition bands : list string := ["B4"; "B3"; "B2"; "B8"].

Section Chain.
Context `{Platform}.

(** The three filters of lines 65-67 as one function of what they are given. *)
Definition collection_filter {V} (c : collection V) (start stop : string)
    (g : Geometry.t) (threshold : Q) : collection V :=
  ImageCollection.filter
    (ImageCollection.filterBounds
       (ImageCollection.filterDate c start stop) g)
    (Filter.lt "CLOUDY_PIXEL_PERCENTAGE" threshold).

(** Lines 64-67: the catalog filtered with the script's constants. *)
Definition s2_filtered : collection Z :=
  collection_filter (load "COPERNICUS/S2_SR_HARMONIZED")
    START_DATE END_DATE aoi_region MAX_CLOUD_PERCENTAGE.

(** Line 68: the mask applied to every image. *)
Definition s2_masked : option (collection Q) :=
  ImageCollection.map s2_filtered maskS2clouds.

(** Line 73: the collection after band selection. *)
Definition s2_collection : option (collection Q) :=
  c ← s2_masked; ImageCollection.select c bands.

(** Line 81. *)
Definition median_image : option (image Q) :=
  ImageCollection.median <$> s2_collection.

End Chain.

(** ** Effects: remote calls, printing, sleeping, exceptions *)

(** The exceptions the script can meet: the platform client's own class, the
    [KeyError] of a dictionary subscript, and any other. *)
Inductive exn : Type :=
  | EEException (msg : string)
  | KeyError (key : string)
  | OtherError (msg : string).

Inductive reply (A : Type) : Type :=
  | Ok (a : A)
  | Fail (e : exn).
Arguments Ok {A} _.
Arguments Fail {A} _.

Record export_request : Type := ExportRequest {
  description : string;
  bucket : string;
  fileNamePrefix : string;
  region : Geometry.t;
  scale : Z;
  crs : string;
  maxPixels : Z
}.

(** What the script does that can be observed from outside, in order. *)
Inductive event : Type :=
  | EvInitialize (project : string)
  | EvAuthenticate
  | EvPrint (line : string)
  | EvStart (req : export_request)
  | EvActive
  | EvStatus
  | EvSleep (seconds : Z).

(** The remote side.  The answer to a call may depend on how many calls of
    that kind were made before it. *)
Record services : Type := Services {
  initialize_reply : nat -> reply ();
  authenticate_reply : nat -> reply ();
  start_reply : nat -> reply string;
  active_reply : nat -> reply bool;
  status_reply : nat -> reply (gmap string string)
}.

Inductive outcome (A : Type) : Type :=
  | Returned (a : A)
  | Raised (e : exn)
  | OutOfFuel.
Arguments Returned {A} _.
Arguments Raised {A} _.
Arguments OutOfFuel {A}.

(** A computation reads the trace so far and extends it. *)
Definition M (A : Type) : Type := list event -> outcome A * list event.

#[local] Instance M_ret : MRet M := fun A a tr => (Returned a, tr).

#[local] Instance M_bind : MBind M := fun A B f m tr =>
  match m tr with
  | (Returned a, tr') => f a tr'
  | (Raised e, tr') => (Raised e, tr')
  | (OutOfFuel, tr') => (OutOfFuel, tr')
  end.

Definition raise {A} (e : exn) : M A := fun tr => (Raised e, tr).

Definition out_of_fuel {A} : M A := fun tr => (OutOfFuel, tr).

(** [try: body except: handler]; the handler says which exceptions it
    catches. *)
Definition try_except {A} (body : M A) (handler : exn -> option (M A)) : M A :=
  fun tr =>
    match body tr with
    | (Raised e, tr') =>
        match handler e with
        | Some h => h tr'
        | None => (Raised e, tr')
        end
    | r => r
    end.

Definition is_initialize (e : event) : bool :=
  match e with EvInitialize _ => true | _ => false end.
Definition is_authenticate (e : event) : bool :=
  match e with EvAuthenticate => true | _ => false end.
Definition is_start (e : event) : bool :=
  match e with EvStart _ => true | _ => false end.
Definition is_active (e : event) : bool :=
  match e with EvActive => true | _ => false end.
Definition is_status (e : event) : bool :=
  match e with EvStatus => true | _ => false end.
Definition is_sleep (e : event) : bool :=
  match e with EvSleep _ => true | _ => false end.

Definition calls (kind : event -> bool) (tr : list event) : nat :=
  length (List.filter kind tr).

(** A remote call: recorded in the trace, answered by the remote side. *)
Definition call {A} (ev : event) (kind : event -> bool)
    (answer : nat -> reply A) : M A :=
  fun tr =>
    match answer (calls kind tr) with
    | Ok a => (Returned a, tr ++ [ev])
    | Fail e => (Raised e, tr ++ [ev])
    end.

Definition print (line : string) : M () := fun tr => (Returned (), tr ++ [EvPrint line]).

Definition sleep (seconds : Z) : M () := fun tr => (Returned (), tr ++ [EvSleep seconds]).

(** [d[key]] on a dictionary. *)
Definition getitem (d : gmap string string) (key : string) : M string :=
  match d !! key with
  | Some v => mret v
  | None => raise (KeyError key)
  end.

(** ** The script's orchestration *)

Definition BUCKET_NAME : string := "valkyrion-satellite-data".
Definition FILENAME : string := "bucharest-sentinel2".

(** Lines 95-104; the image argument is [median_image]. *)
Definition export_task : export_request := {|
  description := "Sentinel2BaseExport";
  bucket := BUCKET_NAME;
  fileNamePrefix := FILENAME;
  region := Geometry.bounds aoi_region;
  scale := 10;
  crs := "EPSG:4326";
  maxPixels := 10000000000
|}.

Section Script.
Context (srv : services).

Definition ee_Initialize (project : string) : M () :=
  call (EvInitialize project) is_initialize (initialize_reply srv).

Definition ee_Authenticate : M () :=
  call EvAuthenticate is_authenticate (authenticate_reply srv).

Definition task_start (req : export_request) : M string :=
  call (EvStart req) is_start (start_reply srv).

Definition task_active : M bool :=
  call EvActive is_active (active_reply srv).

Definition task_status : M (gmap string string) :=
  call EvStatus is_status (status_reply srv).

(** Lines 7-14. *)
Definition initialize : M () :=
  try_except
    (ee_Initialize "valkyrion";;
     print "Google Earth Engine initialized successfully.")
    (fun e =>
       match e with
       | EEException _ =>
           Some (print "Authentication needed. Running ee.Authenticate()...";;
                 ee_Authenticate;;
                 ee_Initialize "valkyrion";;
                 print "Google Earth Engine initialized successfully after authentication.")
       | _ => None
       end).

(** Lines 110-113.  [fuel] bounds the number of iterations the model runs;
    the loop itself has no bound. *)
Fixpoint poll (fuel : nat) : M () :=
  match fuel with
  | O => out_of_fuel
  | S fuel' =>
      active ← task_active;
      if active : bool then
        st ← task_status;
        state ← getitem st "state";
        print ("Task status: " +:+ state);;
        sleep 10;;
        poll fuel'
      else mret ()
  end.

(** Lines 116-124. *)
Definition report : M () :=
  final_status ← task_status;
  state ← getitem final_status "state";
  if String.eqb state "COMPLETED" then
    print "Export COMPLETED successfully!";;
    print ("File should be in: gs://" +:+ BUCKET_NAME +:+ "/" +:+ FILENAME +:+ ".tif")
  else
    state ← getitem final_status "state";
    if String.eqb state "FAILED" then
      print "Export FAILED.";;
      msg ← getitem final_status "error_message";
      print ("Error message: " +:+ msg)
    else
      state ← getitem final_status "state";
      print ("Task finished with state: " +:+ state).

(** Lines 107-124: start the task, watch it, report. *)
Definition monitor (fuel : nat) : M () :=
  id ← task_start export_task;
  print ("Monitoring task: " +:+ id);;
  poll fuel;;
  report.

(** The whole script.  Lines 16-104 build the request on the client and call
    no remote service. *)
Definition main (fuel : nat) : M () :=
  initialize;;
  print "Image collection filtered and median composite created.";;
  monitor fuel.

End Script.

(** What one iteration of the polling loop adds to the trace when the job
    answers that it is active and its status reads [state]. *)
Definition poll_round (state : string) : list event :=
  [EvActive; EvStatus; EvPrint ("Task status: " +:+ state); EvSleep 10].

(** The state the job's [k]-th status answer carries. *)
Definition state_of (srv : services) (k : nat) : string :=
  match status_reply srv k with
  | Ok st => default "" (st !! "state")
  | Fail _ => ""
  end.

(** The trace of [n] rounds of the loop, the first of which reads the
    status answer number [from]. *)
Definition poll_rounds_trace (srv : services) (from n : nat) : list event :=
  concat (poll_round <$> (state_of srv <$> seq from n)).

(** ** Derived notions used by the properties *)

(** Kinds of call that the polling loop and the report never make. *)
Definition outside_monitoring (kind : event -> bool) : Prop :=
  kind EvActive = false /\ kind EvStatus = false
  /\ (forall line, kind (EvPrint line) = false)
  /\ (forall seconds, kind (EvSleep seconds) = false).

(** Whether the quality band lets a position through: the band is present,
    valid there, and its cloud and cirrus bits are clear. *)
Definition clear_pixel (img : image Z) (p : pixel) : bool :=
  match find_band "QA60" img with
  | Some qa => band_mask qa p && cloud_free (band_value qa p)
  | None => false
  end.

(** What the mask and the rescaling make of one pixel of a catalog image:
    the value over 10000 where the pixel is valid and clear, no-data
    elsewhere. *)
Definition clear_value (img : image Z) (name : string) (p : pixel) : option Q :=
  if clear_pixel img p
  then (fun v => Px.divide v 10000) <$> pixel_value img name p
  else None.

(** Lines 68 and 73 on one catalog image: mask and rescale, then select. *)
Definition process_scene (s : scene Z) : option (scene Q) :=
  Scene (scene_props s)
    <$> (maskS2clouds (scene_image s) ≫= fun out => Image.select out bands).

(** ** Sample data for the worked instances *)

Definition flat_band {V} (v : V) : band V := Band (fun _ => v) (fun _ => true).

(** A Sentinel-2 style image with the same value everywhere in each band. *)
Definition flat_image (b2 b3 b4 b8 qa : Z) : image Z :=
  [("B2", flat_band b2); ("B3", flat_band b3); ("B4", flat_band b4);
   ("B8", flat_band b8); ("QA60", flat_band qa)].

(** Three acquisitions of one place: band B4 reads 10000, 20000 and 30000,
    and the quality bits flag the third as cloud. *)
Definition sample_props (t : Z) (cloudy : Q) : properties :=
  Properties t (Geometry.Point 0 0) {["CLOUDY_PIXEL_PERCENTAGE" := cloudy]}.

Definition sample_catalog : collection Z :=
  [Scene (sample_props 1 5) (flat_image 0 0 10000 0 0);
   Scene (sample_props 2 7) (flat_image 0 0 20000 0 0);
   Scene (sample_props 3 9) (flat_image 0 0 30000 0 1024)].

(** A platform that serves that catalog and whose date and bounds tests
    accept every image. *)
Definition sample_platform : Platform := {|
  load := fun _ => sample_catalog;
  date_in_range := fun _ _ _ => true;
  intersects := fun _ _ => true
|}.

(** A remote side that refuses every initialization with the client's
    exception, also after the interactive authentication. *)
Definition denied_services : services := {|
  initialize_reply := fun _ => Fail (EEException "not signed up");
  authenticate_reply := fun _ => Ok ();
  start_reply := fun _ => Ok "T1";
  active_reply := fun _ => Ok false;
  status_reply := fun _ => Ok {["state" := "COMPLETED"]}
|}.

Definition failed_status : gmap string string :=
  <["error_message" := "Image too large"]> {["state" := "FAILED"]}.

(** A remote side whose job is active for two polls and then has failed. *)
Definition failing_job_services : services := {|
  initialize_reply := fun _ => Ok ();
  authenticate_reply := fun _ => Ok ();
  start_reply := fun _ => Ok "T1";
  active_reply := fun k => Ok (k <? 2)%nat;
  status_reply := fun k =>
    Ok (if (k <? 2)%nat then {["state" := "RUNNING"]} else failed_status)
|}.

(** The script's final collection on that platform. *)
Definition sample_collection : collection Q :=
  default [] (@s2_collection sample_platform).

(** A remote side whose initialization fails outside the client's exception
    class. *)
Definition no_credentials_services : services := {|
  initialize_reply := fun _ => Fail (OtherError "DefaultCredentialsError");
  authenticate_reply := fun _ => Ok ();
  start_reply := fun _ => Ok "T1";
  active_reply := fun _ => Ok false;
  status_reply := fun _ => Ok {["state" := "COMPLETED"]}
|}.

(** A remote side whose interactive authentication fails. *)
Definition auth_refused_services : services := {|
  initialize_reply := fun _ => Fail (EEException "not signed up");
  authenticate_reply := fun _ => Fail (OtherError "authorization cancelled");
  start_reply := fun _ => Ok "T1";
  active_reply := fun _ => Ok false;
  status_reply := fun _ => Ok {["state" := "COMPLETED"]}
|}.

(** A remote side that refuses the export request. *)
Definition rejecting_services : services := {|
  initialize_reply := fun _ => Ok ();
  authenticate_reply := fun _ => Ok ();
  start_reply := fun _ => Fail (EEException "bucket not found");
  active_reply := fun _ => Ok true;
  status_reply := fun _ => Ok {["state" := "RUNNING"]}
|}.

(** A remote side whose status call stops answering after the first poll. *)
Definition outage_services : services := {|
  initialize_reply := fun _ => Ok ();
  authenticate_reply := fun _ => Ok ();
  start_reply := fun _ => Ok "T1";
  active_reply := fun _ => Ok true;
  status_reply := fun k =>
    if (k <? 1)%nat then Ok {["state" := "RUNNING"]}
    else Fail (OtherError "connection reset")
|}.

(** A remote side whose job is active for one poll and then has completed. *)
Definition completing_job_services : services := {|
  initialize_reply := fun _ => Ok ();
  authenticate_reply := fun _ => Ok ();
  start_reply := fun _ => Ok "T1";
  active_reply := fun k => Ok (k <? 1)%nat;
  status_reply := fun k =>
    Ok (if (k <? 1)%nat then {["state" := "RUNNING"]}
        else {["state" := "COMPLETED"]})
|}.

(** The sample catalog with one more acquisition that has no quality band
    and whose cloud cover, 50, is above the script's threshold. *)
Definition mixed_platform : Platform := {|
  load := fun _ =>
    sample_catalog ++ [Scene (sample_props 4 50) [("B4", flat_band 1)]];
  date_in_range := fun _ _ _ => true;
  intersects := fun _ _ => true
|}.

(** * Properties *)

(** ** The cloud mask *)

(** ANDing with a single bit isolates that bit. *)
Lemma land_single_bit (q : Z) (n : Z) :
  0 <= n -> Z.land q (Z.shiftl 1 n) = if Z.testbit q n then Z.shiftl 1 n else 0.
Proof.
  intros Hn. rewrite Z.shiftl_1_l.
  apply Z.bits_inj'. intros i Hi.
  rewrite Z.land_spec, Z.pow2_bits_eqb by lia.
  destruct (Z.eqb_spec n i) as [-> | Hne].
  - rewrite andb_true_r. destruct (Z.testbit q i) eqn:Hb.
    + rewrite Z.pow2_bits_true; [done | lia].
    + by rewrite Z.bits_0.
  - rewrite andb_false_r. destruct (Z.testbit q n).
    + rewrite Z.pow2_bits_false; [done | lia].
    + by rewrite Z.bits_0.
Qed.

Lemma bit_test_eq (q n : Z) :
  0 <= n -> Px.eq (Px.bitwiseAnd q (Z.shiftl 1 n)) 0 = if Z.testbit q n then 0 else 1.
Proof.
  intros Hn. unfold Px.eq, Px.bitwiseAnd. rewrite land_single_bit by done.
  destruct (Z.testbit q n); [| done].
  rewrite Z.shiftl_1_l.
  destruct (Z.eqb_spec (2 ^ n) 0) as [H0 | _]; [| done].
  pose proof (Z.pow_pos_nonneg 2 n). lia.
Qed.

Lemma cloud_free_bits (q : Z) :
  cloud_free q = negb (Z.testbit q 10) && negb (Z.testbit q 11).
Proof.
  unfold cloud_free, cloud_mask_value, cloudBitMask, cirrusBitMask.
  rewrite !bit_test_eq by lia.
  by destruct (Z.testbit q 10), (Z.testbit q 11).
Qed.

(** ** Bands of transformed images *)

Lemma find_band_on_bands {V W} (g : band V -> band W) (name : string) (img : image V) :
  find_band name (Image.on_bands g img) = g <$> find_band name img.
Proof.
  induction img as [| [n b] img IH]; [done |].
  cbn. destruct (String.eqb n name); [done | exact IH].
Qed.


Lemma pixel_value_valid {V} (img : image V) (name : string) (p : pixel) :
  pixel_valid img name p = bool_decide (is_Some (pixel_value img name p)).
Proof.
  unfold pixel_valid, pixel_value.
  destruct (find_band name img) as [b |]; [| done].
  by destruct (band_mask b p).
Qed.

Lemma divide_find_band (img : image Z) (c : Z) (name : string) :
  find_band name (Image.divide img c)
  = (fun b => Band (fun p => Px.divide (band_value b p) c) (band_mask b))
    <$> find_band name img.
Proof. unfold Image.divide, Image.map_values. apply find_band_on_bands. Qed.

Lemma divide_pixel_value (img : image Z) (c : Z) (name : string) (p : pixel) :
  pixel_value (Image.divide img c) name p
  = (fun v => Px.divide v c) <$> pixel_value img name p.
Proof.
  unfold pixel_value. rewrite divide_find_band.
  destruct (find_band name img) as [b |]; [| done].
  cbn. by destruct (band_mask b p).
Qed.

Lemma divide_pixel_valid (img : image Z) (c : Z) (name : string) (p : pixel) :
  pixel_valid (Image.divide img c) name p = pixel_valid img name p.
Proof.
  unfold pixel_valid. rewrite divide_find_band.
  by destruct (find_band name img).
Qed.

Lemma select_one {V} (img : image V) (name : string) :
  Image.select img [name] = (fun b => [(name, b)]) <$> find_band name img.
Proof. cbn. by destruct (find_band name img). Qed.

(** The result of [maskS2clouds] on an image that has a quality band. *)
Lemma maskS2clouds_unfold (img : image Z) (qa : band Z) :
  find_band "QA60" img = Some qa ->
  maskS2clouds img
  = Some (Image.divide (Image.updateMask img (cloud_mask [("QA60", qa)])) 10000).
Proof.
  intros Hqa. unfold maskS2clouds. rewrite select_one, Hqa. done.
Qed.

Lemma maskS2clouds_missing (img : image Z) :
  find_band "QA60" img = None -> maskS2clouds img = None.
Proof.
  intros Hqa. unfold maskS2clouds. rewrite select_one, Hqa. done.
Qed.

Lemma updateMask_find_band (img : image Z) (qa : band Z) (name : string) :
  find_band name (Image.updateMask img (cloud_mask [("QA60", qa)]))
  = masked_band qa <$> find_band name img.
Proof. cbn. apply (find_band_on_bands (V:=Z) (W:=Z)). Qed.


Lemma maskS2clouds_find_band (src : image Z) (out : image Q) (qa : band Z)
    (name : string) :
  find_band "QA60" src = Some qa ->
  maskS2clouds src = Some out ->
  find_band name out
  = (fun b => Band (fun p => Px.divide (band_value b p) 10000)
                (band_mask (masked_band qa b)))
    <$> find_band name src.
Proof.
  intros Hqa Hout. rewrite (maskS2clouds_unfold _ _ Hqa) in Hout.
  apply (inj Some) in Hout as <-.
  rewrite divide_find_band, updateMask_find_band.
  by destruct (find_band name src).
Qed.

(** A pixel of the output is valid where it was valid, the quality band is
    valid and the quality bits are clear. *)
Lemma maskS2clouds_pixel_valid (src : image Z) (out : image Q) (qa : band Z)
    (name : string) (p : pixel) :
  find_band "QA60" src = Some qa ->
  maskS2clouds src = Some out ->
  pixel_valid out name p
  = pixel_valid src name p && band_mask qa p && cloud_free (band_value qa p).
Proof.
  intros Hqa Hout. unfold pixel_valid.
  rewrite (maskS2clouds_find_band _ _ _ name Hqa Hout).
  destruct (find_band name src) as [b |]; [| done].
  cbn. by destruct (band_mask b p), (band_mask qa p).
Qed.

Lemma find_band_elem {V} (img : image V) (name : string) (b : band V) :
  find_band name img = Some b -> name ∈ band_names img.
Proof.
  induction img as [| [n b0] img IH]; [done |].
  cbn. destruct (String.eqb_spec n name) as [-> | Hne].
  - intros _. apply list_elem_of_here.
  - intros Hf. apply list_elem_of_further, IH, Hf.
Qed.

Lemma find_band_not_elem {V} (img : image V) (name : string) :
  name ∉ band_names img -> find_band name img = None.
Proof.
  intros Hn. destruct (find_band name img) as [b |] eqn:Hf; [| done].
  destruct Hn. by eapply find_band_elem.
Qed.

Lemma select_band_names {V} (img sel : image V) (names : list string) :
  Image.select img names = Some sel -> band_names sel = names.
Proof.
  revert sel. induction names as [| n names IH]; intros sel.
  - by intros [= <-].
  - cbn. destruct (find_band n img) as [b |]; [| done].
    destruct (Image.select img names) as [bs |]; [| done].
    intros [= <-]. cbn. f_equal. by apply IH.
Qed.

(** C3: rescaling divides every retained pixel value by 10000 and leaves the
    validity mask of every band as it was; this is the last step of
    [maskS2clouds]; 10000 rescales to 1 and 0 to 0. *)
Theorem rescale_divides_and_keeps_mask :
  (forall (masked : image Z) (name : string) (p : pixel),
     pixel_valid (Image.divide masked 10000) name p = pixel_valid masked name p
     /\ pixel_value (Image.divide masked 10000) name p
        = (fun v => (inject_Z v / 10000)%Q) <$> pixel_value masked name p)
  /\ (forall (src : image Z) (qa : band Z),
        find_band "QA60" src = Some qa ->
        maskS2clouds src
        = Some (Image.divide (Image.updateMask src (cloud_mask [("QA60", qa)])) 10000))
  /\ (Px.divide 10000 10000 == 1)%Q
  /\ (Px.divide 0 10000 == 0)%Q.
Proof.
  split; [| split; [| split]].
  - intros masked name p. split.
    + apply divide_pixel_valid.
    + apply divide_pixel_value.
  - intros src qa Hqa. by apply maskS2clouds_unfold.
  - reflexivity.
  - reflexivity.
Qed.

(** The rescaling of a cloud-free image with value 10000 in band B4. *)
Lemma rescale_divides_and_keeps_mask_witness :
  maskS2clouds (flat_image 0 0 10000 0 0)
  = Some (Image.divide
            (Image.updateMask (flat_image 0 0 10000 0 0)
               (cloud_mask [("QA60", flat_band 0)])) 10000)
  /\ pixel_value
       (Image.divide (flat_image 0 0 10000 0 0) 10000) "B4" (0, 0)
     = Some (10000 # 10000)%Q.
Proof.
  destruct rescale_divides_and_keeps_mask as (Hpix & Hmask & _).
  split.
  - apply (Hmask (flat_image 0 0 10000 0 0) (flat_band 0)). reflexivity.
  - rewrite (proj2 (Hpix (flat_image 0 0 10000 0 0) "B4" (0, 0))). reflexivity.
Defined.



(** C1: for every quality-bits value the mask predicate keeps the pixel
    exactly when bit 10 (cloud) and bit 11 (cirrus) are both zero; it keeps
    0 and 512 and rejects 1024, 2048 and 3072; and this predicate, read on
    the QA60 band, is what [maskS2clouds] narrows every band's mask by. *)
Theorem cloud_mask_predicate :
  (forall q : Z,
     cloud_free q = true <-> Z.testbit q 10 = false /\ Z.testbit q 11 = false)
  /\ cloud_free 0 = true
  /\ cloud_free 1024 = false
  /\ cloud_free 2048 = false
  /\ cloud_free 3072 = false
  /\ cloud_free 512 = true
  /\ (forall (src : image Z) (out : image Q) (qa : band Z) name p,
        find_band "QA60" src = Some qa ->
        maskS2clouds src = Some out ->
        pixel_valid out name p
        = pixel_valid src name p && band_mask qa p && cloud_free (band_value qa p)).
Proof.
  split.
  { intros q. rewrite cloud_free_bits, andb_true_iff, !negb_true_iff. tauto. }
  rewrite !cloud_free_bits. repeat (split; [reflexivity |]).
  intros src out qa name p. apply maskS2clouds_pixel_valid.
Qed.

(** ** The median *)

#[local] Instance Qle_total : Total Qle.
Proof.
  intros x y. destruct (Qlt_le_dec x y) as [Hlt | Hle].
  - left. by apply Qlt_le_weak.
  - by right.
Qed.

#[local] Instance Qle_transitive : Transitive Qle.
Proof. intros x y z. apply Qle_trans. Qed.

Lemma median_of_nil : median_of [] = None.
Proof. reflexivity. Qed.

Lemma median_of_one (v : Q) : median_of [v] = Some v.
Proof. reflexivity. Qed.

Lemma median_of_is_Some (xs : list Q) : xs <> [] -> is_Some (median_of xs).
Proof.
  intros Hne. unfold median_of.
  pose proof (Permutation_length (merge_sort_Permutation Qle xs)) as Hlen.
  destruct (length (merge_sort Qle xs)) as [| n] eqn:Hn.
  - destruct xs; [done | discriminate Hlen].
  - by destruct (Nat.even (S n)).
Qed.

(** The median read off any sorted arrangement of the values: the middle one
    for an odd count, the mean of the two middle ones for an even count. *)
Lemma median_of_sorted (xs : list Q) :
  exists sorted : list Q,
    sorted ≡ₚ xs
    /\ StronglySorted Qle sorted
    /\ (forall k, length xs = (2 * k + 1)%nat ->
          exists m, sorted !! k = Some m /\ median_of xs = Some m)
    /\ (forall k, length xs = (2 * k + 2)%nat ->
          exists a b, sorted !! k = Some a /\ sorted !! S k = Some b
            /\ median_of xs = Some ((a + b) / 2)%Q).
Proof.
  exists (merge_sort Qle xs).
  pose proof (merge_sort_Permutation Qle xs) as Hperm.
  pose proof (Permutation_length Hperm) as Hlen.
  split; [exact Hperm |].
  split; [apply (StronglySorted_merge_sort Qle) |].
  unfold median_of. split.
  - intros k Hk. rewrite Hlen, Hk.
    destruct (lookup_lt_is_Some_2 (merge_sort Qle xs) k) as [m Hm]; [lia |].
    exists m. split; [exact Hm |].
    replace (2 * k + 1)%nat with (S (2 * k)) by lia.
    rewrite Nat.even_succ, <- Nat.negb_even, Nat.even_mul. cbn [Nat.even negb orb].
    replace (S (2 * k) / 2)%nat with k
      by (apply (Nat.div_unique _ 2 k 1); lia).
    by rewrite (nth_lookup_Some _ _ _ _ Hm).
  - intros k Hk. rewrite Hlen, Hk.
    destruct (lookup_lt_is_Some_2 (merge_sort Qle xs) k) as [a Ha]; [lia |].
    destruct (lookup_lt_is_Some_2 (merge_sort Qle xs) (S k)) as [b Hb]; [lia |].
    exists a, b. split; [exact Ha |]. split; [exact Hb |].
    replace (2 * k + 2)%nat with (S (S (2 * k))) by lia.
    rewrite !Nat.even_succ_succ, Nat.even_mul. cbn [Nat.even orb].
    replace (S (S (2 * k)) / 2)%nat with (S k)
      by (apply (Nat.div_unique _ 2 (S k) 0); lia).
    replace (S k - 1)%nat with k by lia.
    by rewrite (nth_lookup_Some _ _ _ _ Ha), (nth_lookup_Some _ _ _ _ Hb).
Qed.

(** ** The composite *)

Lemma find_band_built {V} (g : string -> band V) (name : string) (names : list string) :
  name ∈ names ->
  find_band name ((fun n => (n, g n)) <$> names) = Some (g name).
Proof.
  induction names as [| n names IH]; [by intros ?%elem_of_nil |].
  intros Hin. cbn. destruct (String.eqb_spec n name) as [-> | Hne]; [done |].
  apply IH. apply elem_of_cons in Hin as [-> | Hin]; [done | exact Hin].
Qed.

Lemma band_names_built {V} (g : string -> band V) (names : list string) :
  band_names ((fun n => (n, g n)) <$> names) = names.
Proof.
  unfold band_names. rewrite <- list_fmap_compose.
  rewrite <- (list_fmap_id names) at 2. by apply list_fmap_ext.
Qed.

Lemma find_band_is_Some {V} (img : image V) (name : string) :
  name ∈ band_names img -> is_Some (find_band name img).
Proof.
  intros Hin. destruct (find_band name img) eqn:Hf; [by eexists |].
  destruct img as [| [n b] img]; [by apply elem_of_nil in Hin |].
  exfalso. revert Hin Hf. generalize ((n, b) :: img). clear.
  intros l. induction l as [| [n b] l IH]; [by intros ?%elem_of_nil |].
  cbn. intros Hin. destruct (String.eqb_spec n name) as [-> | Hne]; [done |].
  apply IH. apply elem_of_cons in Hin as [-> | Hin]; [done | exact Hin].
Qed.

(** At a band of the first image's schema the composite reads the median of
    the valid values; outside it, and over an empty collection, no-data. *)
Lemma median_pixel_value (c : collection Q) (name : string) (p : pixel) :
  (forall first, head c = Some first -> name ∈ band_names (scene_image first)) ->
  pixel_value (ImageCollection.median c) name p
  = median_of (ImageCollection.valid_values c name p).
Proof.
  intros Hschema. destruct c as [| first rest]; [done |].
  unfold pixel_value, ImageCollection.median.
  rewrite (find_band_built _ name) by (by apply Hschema).
  cbn [band_mask band_value].
  case_bool_decide as Hvs.
  - by destruct (median_of_is_Some _ Hvs) as [m ->].
  - by rewrite Hvs.
Qed.

Lemma median_empty (name : string) (p : pixel) :
  pixel_value (ImageCollection.median []) name p = None.
Proof. reflexivity. Qed.

Lemma map_Forall2 {V W} (f : image V -> option (image W))
    (c : collection V) (c' : collection W) :
  ImageCollection.map c f = Some c' ->
  Forall2 (fun s s' => scene_props s' = scene_props s
                       /\ f (scene_image s) = Some (scene_image s')) c c'.
Proof.
  unfold ImageCollection.map. intros Hm%mapM_Some.
  eapply Forall2_impl; [exact Hm |].
  intros s s' Hs. cbn in Hs.
  destruct (f (scene_image s)) as [img |]; [| done].
  by injection Hs as <-.
Qed.

Section ChainFacts.
Context `{Platform}.

(** Every image of the final collection has exactly the selected bands. *)
Lemma s2_collection_schema (c : collection Q) :
  s2_collection = Some c ->
  Forall (fun s => band_names (scene_image s) = bands) c.
Proof.
  unfold s2_collection. destruct s2_masked as [m |]; [| done].
  cbn. intros Hsel%map_Forall2.
  induction Hsel as [| s s' l l' [_ Hs] _ IH]; constructor; [| exact IH].
  by eapply select_band_names.
Qed.

(** C2: over the script's filtered, masked, band-selected, rescaled
    collection, at every position and for every selected band on its own,
    the composite reads the median of the values of exactly the images where
    that pixel is valid: the middle value of their sorted arrangement for an
    odd count, the mean of the two middle values for an even count (2.5 for
    1, 2, 3, 4), and no-data when the pixel is valid in no image. *)
Theorem median_composite_per_pixel (c : collection Q) (name : string) (p : pixel) :
  s2_collection = Some c ->
  name ∈ bands ->
  let values := ImageCollection.valid_values c name p in
  let composite := pixel_value (ImageCollection.median c) name p in
  (forall v, v ∈ values <->
     exists s, s ∈ c /\ pixel_value (scene_image s) name p = Some v)
  /\ length values
     = length (filter (fun s => pixel_valid (scene_image s) name p = true) c)
  /\ composite = median_of values
  /\ (values = [] <-> composite = None)
  /\ (exists sorted : list Q,
        sorted ≡ₚ values
        /\ StronglySorted Qle sorted
        /\ (forall k, length values = (2 * k + 1)%nat ->
              exists m, sorted !! k = Some m /\ composite = Some m)
        /\ (forall k, length values = (2 * k + 2)%nat ->
              exists a b, sorted !! k = Some a /\ sorted !! S k = Some b
                /\ composite = Some ((a + b) / 2)%Q))
  /\ median_of [1; 2; 3; 4]%Q = Some (5 # 2)%Q.
Proof.
  intros Hc Hname values composite.
  assert (Hmed : composite = median_of values).
  { apply median_pixel_value. intros first Hfirst.
    pose proof (s2_collection_schema _ Hc) as Hall.
    destruct c as [| s rest]; [done |]. injection Hfirst as ->.
    apply Forall_cons in Hall as [-> _]. exact Hname. }
  split; [intros v; apply list_elem_of_omap |].
  split.
  { unfold values, ImageCollection.valid_values. clear.
    induction c as [| s c IH]; [done |].
    cbn [omap list_omap]. rewrite filter_cons, pixel_value_valid.
    destruct (pixel_value (scene_image s) name p) as [v |]; cbn.
    - rewrite decide_True by done. cbn. by f_equal.
    - by rewrite decide_False. }
  split; [exact Hmed |].
  split.
  { rewrite Hmed. split; [by intros -> |].
    intros Hnone. destruct (decide (values = [])) as [| Hne]; [done |].
    destruct (median_of_is_Some _ Hne) as [m Hm]. congruence. }
  split; [| reflexivity].
  destruct (median_of_sorted values) as (sorted & Hperm & Hsorted & Hodd & Heven).
  exists sorted. rewrite Hmed. by repeat split.
Qed.

End ChainFacts.

(** On the sample platform the third acquisition is masked, so band B4 of
    the composite is the median of the two values that remain. *)
Lemma median_composite_per_pixel_witness :
  pixel_value (ImageCollection.median sample_collection) "B4" (0, 0)
  = median_of (ImageCollection.valid_values sample_collection "B4" (0, 0)).
Proof.
  assert (Hc : @s2_collection sample_platform = Some sample_collection)
    by (vm_compute; reflexivity).
  assert (Hb : "B4" ∈ bands) by apply list_elem_of_here.
  exact (proj1 (proj2 (proj2
    (median_composite_per_pixel (H:=sample_platform)
       sample_collection "B4" (0, 0) Hc Hb)))).
Defined.

(** The end-to-end scenario: values 10000 and 20000 and a third, masked
    acquisition give 1.5 after rescaling. *)
Example end_to_end_composite :
  Qred <$> pixel_value (ImageCollection.median sample_collection) "B4" (0, 0)
  = Some (3 # 2)%Q.
Proof. vm_compute. reflexivity. Qed.

(** C5: the composite of a collection of exactly one image has that image's
    bands and reads, at every band and position, what the image reads there:
    the value where the pixel is valid, no-data where it is masked. *)
Theorem median_of_single_image (s : scene Q) :
  band_names (ImageCollection.median [s]) = band_names (scene_image s)
  /\ forall (name : string) (p : pixel),
       pixel_value (ImageCollection.median [s]) name p
       = pixel_value (scene_image s) name p.
Proof.
  assert (Hnames : band_names (ImageCollection.median [s])
                   = band_names (scene_image s))
    by apply band_names_built.
  split; [exact Hnames |].
  intros name p.
  destruct (decide (name ∈ band_names (scene_image s))) as [Hin | Hout].
  - rewrite median_pixel_value by (by intros first [= <-]).
    unfold ImageCollection.valid_values. cbn [omap list_omap].
    destruct (pixel_value (scene_image s) name p) as [v |]; [| done].
    apply median_of_one.
  - unfold pixel_value.
    rewrite (find_band_not_elem (scene_image s)) by done.
    by rewrite find_band_not_elem by (by rewrite Hnames).
Qed.

(** ** The collection filter *)

Lemma Qltb_lt (x y : Q) : Qltb x y = true <-> (x < y)%Q.
Proof.
  unfold Qltb. rewrite negb_true_iff, <- not_true_iff_false, Qle_bool_iff.
  split; [apply Qnot_le_lt | apply Qlt_not_le].
Qed.

Lemma sublist_StronglySorted {A} (R : relation A) (l1 l2 : list A) :
  l1 `sublist_of` l2 -> StronglySorted R l2 -> StronglySorted R l1.
Proof.
  induction 1 as [| x l1 l2 Hsub IH | x l1 l2 Hsub IH];
    rewrite ?StronglySorted_cons; [done | |].
  - intros [Hall Hs]. split; [| by apply IH].
    rewrite Forall_forall in Hall |- *.
    intros y Hy. apply Hall. by eapply elem_of_sublist.
  - intros [_ Hs]. by apply IH.
Qed.

Section FilterFacts.
Context `{Platform}.

(** C4: the filter returns exactly the images of the input whose acquisition
    time is in the date range, whose footprint intersects the region and
    whose cloud-cover property is strictly less than the threshold, as a
    subsequence of the input, so an input in acquisition-time order stays in
    that order; when the script's filter leaves no image, the chain still
    yields a composite, one that reads no-data everywhere. *)
Theorem collection_filter_subsequence {V} (c : collection V)
    (start stop : string) (g : Geometry.t) (threshold : Q) :
  let kept := collection_filter c start stop g threshold in
  (forall s, s ∈ kept <->
     s ∈ c
     /\ date_in_range start stop (time_start (scene_props s)) = true
     /\ intersects (footprint (scene_props s)) g = true
     /\ exists cover, numbers (scene_props s) !! "CLOUDY_PIXEL_PERCENTAGE" = Some cover
          /\ (cover < threshold)%Q)
  /\ kept `sublist_of` c
  /\ (StronglySorted
        (fun a b => time_start (scene_props a) <= time_start (scene_props b)) c ->
      StronglySorted
        (fun a b => time_start (scene_props a) <= time_start (scene_props b)) kept)
  /\ (s2_filtered = [] ->
      exists composite, median_image = Some composite
        /\ forall name p, pixel_value composite name p = None).
Proof.
  intros kept.
  assert (Hsub : kept `sublist_of` c).
  { unfold kept, collection_filter, ImageCollection.filter,
      ImageCollection.filterBounds, ImageCollection.filterDate.
    etrans; [apply sublist_filter |]. etrans; apply sublist_filter. }
  split; [| split; [exact Hsub | split]].
  - intros s. unfold kept, collection_filter, ImageCollection.filter,
      ImageCollection.filterBounds, ImageCollection.filterDate.
    rewrite !list_elem_of_filter. cbn [Filter.accepts].
    destruct (numbers (scene_props s) !! "CLOUDY_PIXEL_PERCENTAGE") as [x |].
    + rewrite Qltb_lt. split.
      * intros (Hlt & Hb & Hd & Hin). repeat split; try done. by exists x.
      * intros (Hin & Hd & Hb & cover & [= <-] & Hlt). done.
    + split; [by intros [? _] | by intros (_ & _ & _ & ? & ? & _)].
  - by apply sublist_StronglySorted.
  - intros Hempty. exists []. split; [| done].
    unfold median_image, s2_collection, s2_masked. by rewrite Hempty.
Qed.

End FilterFacts.

(** With threshold 7 the sample catalog keeps the acquisition whose cover is
    5 and drops the one whose cover is exactly 7. *)
Lemma collection_filter_subsequence_witness :
  Scene (sample_props 1 5) (flat_image 0 0 10000 0 0)
    ∈ collection_filter (H:=sample_platform) sample_catalog
        START_DATE END_DATE aoi_region 7
  /\ Scene (sample_props 2 7) (flat_image 0 0 20000 0 0)
    ∉ collection_filter (H:=sample_platform) sample_catalog
        START_DATE END_DATE aoi_region 7.
Proof.
  pose proof (collection_filter_subsequence (H:=sample_platform)
                sample_catalog START_DATE END_DATE aoi_region 7) as [Hmem _].
  split.
  - apply Hmem. split; [apply list_elem_of_here |].
    split; [reflexivity |]. split; [reflexivity |].
    exists 5%Q. split; [reflexivity | reflexivity].
  - intros (_ & _ & _ & cover & Hcover & Hlt)%Hmem.
    vm_compute in Hcover. injection Hcover as <-. discriminate Hlt.
Defined.

(** ** The script's run *)

Lemma calls_app (kind : event -> bool) (tr1 tr2 : list event) :
  calls kind (tr1 ++ tr2) = (calls kind tr1 + calls kind tr2)%nat.
Proof. unfold calls. by rewrite List.filter_app, length_app. Qed.

Lemma bind_returned {A B} (m : M A) (f : A -> M B) (tr tr' : list event) (a : A) :
  m tr = (Returned a, tr') -> (m ≫= f) tr = f a tr'.
Proof. intros Hm. unfold mbind, M_bind. by rewrite Hm. Qed.

Lemma bind_raised {A B} (m : M A) (f : A -> M B) (tr tr' : list event) (e : exn) :
  m tr = (Raised e, tr') -> (m ≫= f) tr = (Raised e, tr').
Proof. intros Hm. unfold mbind, M_bind. by rewrite Hm. Qed.

Lemma bind_out_of_fuel {A B} (m : M A) (f : A -> M B) (tr tr' : list event) :
  m tr = (OutOfFuel, tr') -> (m ≫= f) tr = (OutOfFuel, tr').
Proof. intros Hm. unfold mbind, M_bind. by rewrite Hm. Qed.

Lemma call_ok {A} (ev : event) (kind : event -> bool) (answer : nat -> reply A)
    (tr : list event) (a : A) :
  answer (calls kind tr) = Ok a -> call ev kind answer tr = (Returned a, tr ++ [ev]).
Proof. intros Ha. unfold call. by rewrite Ha. Qed.

Lemma call_fail {A} (ev : event) (kind : event -> bool) (answer : nat -> reply A)
    (tr : list event) (e : exn) :
  answer (calls kind tr) = Fail e -> call ev kind answer tr = (Raised e, tr ++ [ev]).
Proof. intros Ha. unfold call. by rewrite Ha. Qed.

Section Run.
Context (srv : services).

(** C6: when the first initialization fails with the client's exception, the
    failure is caught, the interactive authentication runs, and
    initialization is called once more, twice in all; if that second call
    fails, with whatever exception, nothing catches it: the script ends there
    with that exception and does nothing further. *)
Theorem auth_failure_retried_once (fuel : nat) (msg : string) :
  initialize_reply srv 0 = Fail (EEException msg) ->
  authenticate_reply srv 0 = Ok () ->
  (forall e, initialize_reply srv 1 = Fail e ->
     main srv fuel []
     = (Raised e,
        [EvInitialize "valkyrion";
         EvPrint "Authentication needed. Running ee.Authenticate()...";
         EvAuthenticate;
         EvInitialize "valkyrion"]))
  /\ (initialize_reply srv 1 = Ok () ->
      initialize srv []
      = (Returned (),
         [EvInitialize "valkyrion";
          EvPrint "Authentication needed. Running ee.Authenticate()...";
          EvAuthenticate;
          EvInitialize "valkyrion";
          EvPrint "Google Earth Engine initialized successfully after authentication."]))
  /\ calls is_initialize (initialize srv []).2 = 2%nat
  /\ calls is_authenticate (initialize srv []).2 = 1%nat.
Proof.
  intros Hfirst Hauth.
  assert (Hrun : forall r, initialize_reply srv 1 = r ->
            initialize srv []
            = (match r with Ok _ => Returned () | Fail e => Raised e end,
               [EvInitialize "valkyrion";
                EvPrint "Authentication needed. Running ee.Authenticate()...";
                EvAuthenticate;
                EvInitialize "valkyrion"]
               ++ match r with
                  | Ok _ => [EvPrint "Google Earth Engine initialized successfully after authentication."]
                  | Fail _ => []
                  end)).
  { intros r Hr.
    unfold initialize, try_except, ee_Initialize, ee_Authenticate, print, call,
      mbind, M_bind.
    cbn. rewrite Hfirst. cbn. rewrite Hauth. cbn. rewrite Hr.
    by destruct r as [[] | e]. }
  split; [| split].
  - intros e He. unfold main.
    by rewrite (bind_raised _ _ _ _ _ (Hrun _ He)).
  - intros Hok. by rewrite (Hrun _ Hok).
  - rewrite (Hrun _ eq_refl). by destruct (initialize_reply srv 1).
Qed.

End Run.

Section Monitoring.
Context (srv : services).

(** One iteration of the loop, by what the job answers. *)
Lemma poll_unfold (fuel : nat) (tr : list event) :
  poll srv (S fuel) tr
  = match active_reply srv (calls is_active tr) with
    | Fail e => (Raised e, tr ++ [EvActive])
    | Ok false => (Returned (), tr ++ [EvActive])
    | Ok true =>
        match status_reply srv (calls is_status tr) with
        | Fail e => (Raised e, tr ++ [EvActive; EvStatus])
        | Ok st =>
            match st !! "state" with
            | None => (Raised (KeyError "state"), tr ++ [EvActive; EvStatus])
            | Some state => poll srv fuel (tr ++ poll_round state)
            end
        end
    end.
Proof.
  cbn [poll]. unfold task_active, task_status, call, mbind, M_bind.
  destruct (active_reply srv (calls is_active tr)) as [[|] | e]; [| done | done].
  rewrite calls_app. cbn [calls List.filter is_status length].
  rewrite Nat.add_0_r.
  destruct (status_reply srv (calls is_status tr)) as [st | e];
    [| by rewrite <- app_assoc].
  unfold getitem. destruct (st !! "state") as [state |].
  - unfold mret, M_ret, print, sleep, poll_round.
    by rewrite <- !app_assoc.
  - unfold raise. by rewrite <- app_assoc.
Qed.

Lemma calls_poll_round (state : string) :
  calls is_active (poll_round state) = 1%nat
  /\ calls is_status (poll_round state) = 1%nat
  /\ calls is_sleep (poll_round state) = 1%nat.
Proof. done. Qed.

Lemma calls_sleep_rounds (states : list string) :
  calls is_sleep (concat (poll_round <$> states)) = length states.
Proof.
  induction states as [| s states IH]; [done |].
  cbn [fmap list_fmap concat]. rewrite calls_app, IH. done.
Qed.

(** A normal exit of the loop: some rounds, then an answer "not active". *)
Lemma poll_returned_inv (fuel : nat) (tr tr' : list event) :
  poll srv fuel tr = (Returned (), tr') ->
  exists states,
    tr' = tr ++ concat (poll_round <$> states) ++ [EvActive]
    /\ (length states < fuel)%nat
    /\ active_reply srv (calls is_active tr + length states) = Ok false
    /\ forall k, (k < length states)%nat ->
         active_reply srv (calls is_active tr + k) = Ok true.
Proof.
  revert tr. induction fuel as [| fuel IH]; intros tr; [done |].
  rewrite poll_unfold.
  destruct (active_reply srv (calls is_active tr)) as [[|] | e] eqn:Hact;
    [| | done].
  - destruct (status_reply srv (calls is_status tr)) as [st | e]; [| done].
    destruct (st !! "state") as [state |]; [| done].
    intros (states & -> & Hlen & Hlast & Hbefore)%IH.
    rewrite calls_app, (proj1 (calls_poll_round state)) in Hlast, Hbefore.
    exists (state :: states). cbn [fmap list_fmap concat length].
    split; [by rewrite <- !app_assoc |].
    split; [lia |].
    split; [by replace (calls is_active tr + S (length states))%nat
              with (calls is_active tr + 1 + length states)%nat by lia |].
    intros [| k] Hk.
    + by rewrite Nat.add_0_r.
    + replace (calls is_active tr + S k)%nat
        with (calls is_active tr + 1 + k)%nat by lia.
      apply Hbefore. lia.
  - intros [= <-]. exists []. cbn. rewrite Nat.add_0_r.
    split; [done |]. split; [lia |]. split; [done |]. intros k Hk. lia.
Qed.

Lemma calls_rounds (from n : nat) :
  calls is_active (poll_rounds_trace srv from n) = n
  /\ calls is_status (poll_rounds_trace srv from n) = n
  /\ calls is_sleep (poll_rounds_trace srv from n) = n.
Proof.
  unfold poll_rounds_trace. revert from.
  induction n as [| n IH]; intros from; [done |].
  cbn [seq fmap list_fmap concat]. rewrite !calls_app.
  destruct (IH (S from)) as (-> & -> & ->). done.
Qed.

Lemma sleeps_rounds (from n : nat) :
  Forall (fun e => is_sleep e = true -> e = EvSleep 10) (poll_rounds_trace srv from n).
Proof.
  unfold poll_rounds_trace. revert from.
  induction n as [| n IH]; intros from; [by constructor |].
  cbn [seq fmap list_fmap concat]. apply Forall_app. split; [| apply IH].
  unfold poll_round. repeat constructor; done.
Qed.

(** While the job answers "active" the loop goes round. *)
Lemma poll_rounds (n fuel : nat) (tr : list event) :
  (forall k, exists st state,
     status_reply srv k = Ok st /\ st !! "state" = Some state) ->
  (forall k, (k < n)%nat -> active_reply srv (calls is_active tr + k) = Ok true) ->
  poll srv (n + fuel) tr
  = poll srv fuel (tr ++ poll_rounds_trace srv (calls is_status tr) n).
Proof.
  intros Hstatus. revert tr. induction n as [| n IH]; intros tr Hactive.
  - unfold poll_rounds_trace. cbn. by rewrite app_nil_r.
  - cbn [Nat.add]. rewrite poll_unfold.
    assert (Hnow : active_reply srv (calls is_active tr) = Ok true).
    { rewrite <- (Nat.add_0_r (calls is_active tr)). apply Hactive. lia. }
    destruct (Hstatus (calls is_status tr)) as (st & state & Hst & Hstate).
    rewrite Hnow, Hst, Hstate, IH.
    + rewrite calls_app, (proj1 (proj2 (calls_poll_round state))).
      unfold poll_rounds_trace. cbn [seq fmap list_fmap concat].
      unfold state_of at 2. rewrite Hst, Hstate. cbn [default].
      rewrite <- app_assoc. by rewrite Nat.add_1_r.
    + intros k Hk. rewrite calls_app, (proj1 (calls_poll_round state)).
      replace (calls is_active tr + 1 + k)%nat
        with (calls is_active tr + S k)%nat by lia.
      apply Hactive. lia.
Qed.

End Monitoring.

(** The remote side refuses twice: the script ends with the second
    exception after exactly two initialization calls. *)
Lemma auth_failure_retried_once_witness :
  main denied_services 5 []
  = (Raised (EEException "not signed up"),
     [EvInitialize "valkyrion";
      EvPrint "Authentication needed. Running ee.Authenticate()...";
      EvAuthenticate;
      EvInitialize "valkyrion"]).
Proof.
  exact (proj1 (auth_failure_retried_once denied_services 5 "not signed up"
                  eq_refl eq_refl) (EEException "not signed up") eq_refl).
Defined.

Section Reporting.
Context (srv : services).

Lemma sleeps_of_rounds (states : list string) :
  Forall (fun e => is_sleep e = true -> e = EvSleep 10)
    (concat (poll_round <$> states)).
Proof.
  induction states as [| s states IH]; [by constructor |].
  cbn [fmap list_fmap concat]. apply Forall_app. split; [| exact IH].
  unfold poll_round. repeat constructor; done.
Qed.

(** The loop leaves at the first answer "not active". *)
Lemma poll_exit (n fuel : nat) (tr : list event) :
  (forall k, exists st state,
     status_reply srv k = Ok st /\ st !! "state" = Some state) ->
  (forall k, (k < n)%nat -> active_reply srv (calls is_active tr + k) = Ok true) ->
  active_reply srv (calls is_active tr + n) = Ok false ->
  (n < fuel)%nat ->
  poll srv fuel tr
  = (Returned (), tr ++ poll_rounds_trace srv (calls is_status tr) n ++ [EvActive]).
Proof.
  intros Hstatus Hactive Hend Hfuel.
  replace fuel with (n + S (fuel - S n))%nat by lia.
  rewrite (poll_rounds srv n _ tr Hstatus Hactive), poll_unfold.
  rewrite calls_app, (proj1 (calls_rounds srv _ n)), Hend.
  by rewrite <- app_assoc.
Qed.

(** From submission to the report, when the job ends after [n] polls. *)
Lemma monitor_exit (id : string) (n fuel : nat) (tr : list event) :
  start_reply srv (calls is_start tr) = Ok id ->
  (forall k, exists st state,
     status_reply srv k = Ok st /\ st !! "state" = Some state) ->
  (forall k, (k < n)%nat -> active_reply srv (calls is_active tr + k) = Ok true) ->
  active_reply srv (calls is_active tr + n) = Ok false ->
  (n < fuel)%nat ->
  monitor srv fuel tr
  = report srv
      (tr ++ [EvStart export_task; EvPrint ("Monitoring task: " +:+ id)]
          ++ poll_rounds_trace srv (calls is_status tr) n ++ [EvActive]).
Proof.
  intros Hstart Hstatus Hactive Hend Hfuel.
  unfold monitor, task_start.
  rewrite (bind_returned _ _ _ _ _ (call_ok _ _ _ tr _ Hstart)).
  unfold mbind at 1, M_bind at 1. unfold print at 1.
  unfold mbind at 1, M_bind at 1.
  set (tr1 := (tr ++ [EvStart export_task]) ++ [EvPrint ("Monitoring task: " +:+ id)]).
  assert (Ha : calls is_active tr1 = calls is_active tr)
    by (unfold tr1; rewrite !calls_app; cbn; lia).
  assert (Hs : calls is_status tr1 = calls is_status tr)
    by (unfold tr1; rewrite !calls_app; cbn; lia).
  rewrite (poll_exit n fuel tr1 Hstatus); rewrite ?Ha; try done.
  rewrite Hs. unfold tr1. by rewrite <- !app_assoc.
Qed.

(** C7: once the export is submitted the script asks whether the job is
    active, and as long as the answer is yes it reads the status, prints it,
    sleeps 10 seconds and asks again: after any number of such answers the
    loop is still running.  It leaves the loop at the first answer "not
    active" and at no other point, then runs the report; a job that stays
    active keeps the loop running for every bound on its iterations. *)
Theorem polling_runs_until_job_ends (id : string) :
  start_reply srv 0 = Ok id ->
  (forall k, exists st state,
     status_reply srv k = Ok st /\ st !! "state" = Some state) ->
  (forall n, (forall k, (k < n)%nat -> active_reply srv k = Ok true) ->
     poll srv n [] = (OutOfFuel, poll_rounds_trace srv 0 n))
  /\ (forall n fuel,
        (forall k, (k < n)%nat -> active_reply srv k = Ok true) ->
        active_reply srv n = Ok false ->
        (n < fuel)%nat ->
        poll srv fuel [] = (Returned (), poll_rounds_trace srv 0 n ++ [EvActive])
        /\ monitor srv fuel []
           = report srv
               ([EvStart export_task; EvPrint ("Monitoring task: " +:+ id)]
                ++ poll_rounds_trace srv 0 n ++ [EvActive]))
  /\ (forall fuel tr', poll srv fuel [] = (Returned (), tr') ->
        exists n, (n < fuel)%nat
          /\ active_reply srv n = Ok false
          /\ (forall k, (k < n)%nat -> active_reply srv k = Ok true)
          /\ calls is_sleep tr' = n
          /\ Forall (fun e => is_sleep e = true -> e = EvSleep 10) tr')
  /\ ((forall k, active_reply srv k = Ok true) ->
      forall fuel, (poll srv fuel []).1 = OutOfFuel).
Proof.
  intros Hstart Hstatus.
  assert (Hrunning : forall n,
            (forall k, (k < n)%nat -> active_reply srv k = Ok true) ->
            poll srv n [] = (OutOfFuel, poll_rounds_trace srv 0 n)).
  { intros n Hactive.
    rewrite <- (Nat.add_0_r n) at 1.
    by rewrite (poll_rounds srv n 0 [] Hstatus Hactive). }
  split; [exact Hrunning |].
  split; [| split].
  - intros n fuel Hactive Hend Hfuel. split.
    + by rewrite (poll_exit n fuel [] Hstatus Hactive Hend Hfuel).
    + by rewrite (monitor_exit id n fuel [] Hstart Hstatus Hactive Hend Hfuel).
  - intros fuel tr' (states & -> & Hlen & Hend & Hactive)%poll_returned_inv.
    exists (length states).
    split; [exact Hlen |]. split; [exact Hend |]. split; [exact Hactive |].
    cbn [app]. split.
    + rewrite calls_app, calls_sleep_rounds. cbn. lia.
    + apply Forall_app. split; [apply sleeps_of_rounds |].
      by repeat constructor.
  - intros Hforever fuel. by rewrite Hrunning.
Qed.

(** A first initialization that succeeds. *)
Lemma initialize_ok (tr : list event) :
  initialize_reply srv (calls is_initialize tr) = Ok () ->
  initialize srv tr
  = (Returned (),
     tr ++ [EvInitialize "valkyrion";
            EvPrint "Google Earth Engine initialized successfully."]).
Proof.
  intros Hinit.
  unfold initialize, try_except, ee_Initialize, call, print, mbind, M_bind.
  rewrite Hinit. by rewrite <- app_assoc.
Qed.

(** C8: a final status whose state is "FAILED" makes the script print the
    failure line and the text of the status's error-message field, and the
    script then ends normally; any other state takes another branch, so
    "FAILED" is the one state reported as a failure; a whole run whose job
    fails ends with that report and no exception. *)
Theorem failed_export_is_reported :
  (forall tr st msg,
     status_reply srv (calls is_status tr) = Ok st ->
     st !! "state" = Some "FAILED" ->
     st !! "error_message" = Some msg ->
     report srv tr
     = (Returned (),
        tr ++ [EvStatus; EvPrint "Export FAILED.";
               EvPrint ("Error message: " +:+ msg)]))
  /\ (forall tr st state,
        status_reply srv (calls is_status tr) = Ok st ->
        st !! "state" = Some state ->
        state <> "FAILED" ->
        report srv tr
        = (Returned (),
           tr ++ EvStatus ::
             (if String.eqb state "COMPLETED"
              then [EvPrint "Export COMPLETED successfully!";
                    EvPrint ("File should be in: gs://" +:+ BUCKET_NAME +:+ "/"
                             +:+ FILENAME +:+ ".tif")]
              else [EvPrint ("Task finished with state: " +:+ state)])))
  /\ (forall id n fuel st msg,
        initialize_reply srv 0 = Ok () ->
        start_reply srv 0 = Ok id ->
        (forall k, exists st state,
           status_reply srv k = Ok st /\ st !! "state" = Some state) ->
        (forall k, (k < n)%nat -> active_reply srv k = Ok true) ->
        active_reply srv n = Ok false ->
        (n < fuel)%nat ->
        status_reply srv n = Ok st ->
        st !! "state" = Some "FAILED" ->
        st !! "error_message" = Some msg ->
        main srv fuel []
        = (Returned (),
           [EvInitialize "valkyrion";
            EvPrint "Google Earth Engine initialized successfully.";
            EvPrint "Image collection filtered and median composite created.";
            EvStart export_task;
            EvPrint ("Monitoring task: " +:+ id)]
           ++ poll_rounds_trace srv 0 n
           ++ [EvActive; EvStatus; EvPrint "Export FAILED.";
               EvPrint ("Error message: " +:+ msg)])).
Proof.
  assert (Hfailed : forall tr st msg,
            status_reply srv (calls is_status tr) = Ok st ->
            st !! "state" = Some "FAILED" ->
            st !! "error_message" = Some msg ->
            report srv tr
            = (Returned (),
               tr ++ [EvStatus; EvPrint "Export FAILED.";
                      EvPrint ("Error message: " +:+ msg)])).
  { intros tr st msg Hst Hstate Hmsg.
    unfold report, task_status, call, getitem, print, mbind, M_bind, mret, M_ret.
    rewrite Hst, Hstate. cbn. rewrite Hmsg. by rewrite <- !app_assoc. }
  split; [exact Hfailed |]. split.
  - intros tr st state Hst Hstate Hne.
    unfold report, task_status, call, getitem, print, mbind, M_bind, mret, M_ret.
    rewrite Hst, Hstate.
    destruct (String.eqb_spec state "COMPLETED") as [-> | Hnc].
    + by rewrite <- !app_assoc.
    + destruct (String.eqb_spec state "FAILED") as [-> | _]; [done |].
      by rewrite <- !app_assoc.
  - intros id n fuel st msg Hinit Hstart Hstatus Hactive Hend Hfuel Hst Hstate Hmsg.
    unfold main.
    rewrite (bind_returned _ _ _ _ _ (initialize_ok [] Hinit)).
    unfold mbind at 1, M_bind at 1. unfold print at 1.
    erewrite monitor_exit;
      [| exact Hstart | exact Hstatus | exact Hactive | exact Hend | exact Hfuel].
    erewrite Hfailed; [| | exact Hstate | exact Hmsg].
    + by rewrite <- !app_assoc.
    + rewrite !calls_app, (proj1 (proj2 (calls_rounds srv _ n))).
      cbn [calls List.filter is_status length Nat.add].
      by rewrite Nat.add_0_r.
Qed.

(** Without the error-message field the subscript fails after the failure
    line is printed. *)
Remark failed_status_without_message (tr : list event) (st : gmap string string) :
  status_reply srv (calls is_status tr) = Ok st ->
  st !! "state" = Some "FAILED" ->
  st !! "error_message" = None ->
  report srv tr
  = (Raised (KeyError "error_message"), tr ++ [EvStatus; EvPrint "Export FAILED."]).
Proof.
  intros Hst Hstate Hmsg.
  unfold report, task_status, call, getitem, print, mbind, M_bind, mret, M_ret.
  rewrite Hst, Hstate. cbn. rewrite Hmsg. by rewrite <- !app_assoc.
Qed.

End Reporting.

Lemma failing_job_statuses (k : nat) :
  exists st state,
    status_reply failing_job_services k = Ok st /\ st !! "state" = Some state.
Proof.
  unfold failing_job_services, status_reply. destruct (k <? 2)%nat.
  - exists {["state" := "RUNNING"]}, "RUNNING".
    split; [reflexivity | by vm_compute].
  - exists failed_status, "FAILED".
    split; [reflexivity | by vm_compute].
Qed.

Lemma failing_job_active (k : nat) :
  (k < 2)%nat -> active_reply failing_job_services k = Ok true.
Proof.
  intros Hk. unfold failing_job_services, active_reply.
  by rewrite (proj2 (Nat.ltb_lt k 2) Hk).
Qed.

(** The job is active for two polls: the loop makes two rounds, sleeping 10
    seconds in each, and leaves at the third question. *)
Lemma polling_runs_until_job_ends_witness :
  poll failing_job_services 3 []
  = (Returned (),
     [EvActive; EvStatus; EvPrint "Task status: RUNNING"; EvSleep 10;
      EvActive; EvStatus; EvPrint "Task status: RUNNING"; EvSleep 10;
      EvActive]).
Proof.
  exact (proj1 (proj1 (proj2
    (polling_runs_until_job_ends failing_job_services "T1" eq_refl
       failing_job_statuses))
    2%nat 3%nat failing_job_active eq_refl (Nat.lt_succ_diag_r 2))).
Defined.

(** The whole run of the script when the job fails after two polls. *)
Lemma failed_export_is_reported_witness :
  main failing_job_services 3 []
  = (Returned (),
     [EvInitialize "valkyrion";
      EvPrint "Google Earth Engine initialized successfully.";
      EvPrint "Image collection filtered and median composite created.";
      EvStart export_task;
      EvPrint "Monitoring task: T1";
      EvActive; EvStatus; EvPrint "Task status: RUNNING"; EvSleep 10;
      EvActive; EvStatus; EvPrint "Task status: RUNNING"; EvSleep 10;
      EvActive; EvStatus; EvPrint "Export FAILED.";
      EvPrint "Error message: Image too large"]).
Proof.
  exact (proj2 (proj2 (failed_export_is_reported failing_job_services))
    "T1" 2%nat 3%nat failed_status "Image too large"
    eq_refl eq_refl failing_job_statuses failing_job_active eq_refl
    (Nat.lt_succ_diag_r 2) eq_refl eq_refl eq_refl).
Defined.

(** ** Every path of the run *)

Section Paths.
Context (srv : services).

(** The authentication block, by what the remote side answers. *)
Lemma initialize_unfold (tr : list event) :
  initialize srv tr
  = match initialize_reply srv (calls is_initialize tr) with
    | Ok _ =>
        (Returned (),
         tr ++ [EvInitialize "valkyrion";
                EvPrint "Google Earth Engine initialized successfully."])
    | Fail (EEException _) =>
        match authenticate_reply srv (calls is_authenticate tr) with
        | Fail e =>
            (Raised e,
             tr ++ [EvInitialize "valkyrion";
                    EvPrint "Authentication needed. Running ee.Authenticate()...";
                    EvAuthenticate])
        | Ok _ =>
            match initialize_reply srv (S (calls is_initialize tr)) with
            | Ok _ =>
                (Returned (),
                 tr ++ [EvInitialize "valkyrion";
                        EvPrint "Authentication needed. Running ee.Authenticate()...";
                        EvAuthenticate;
                        EvInitialize "valkyrion";
                        EvPrint "Google Earth Engine initialized successfully after authentication."])
            | Fail e =>
                (Raised e,
                 tr ++ [EvInitialize "valkyrion";
                        EvPrint "Authentication needed. Running ee.Authenticate()...";
                        EvAuthenticate;
                        EvInitialize "valkyrion"])
            end
        end
    | Fail e => (Raised e, tr ++ [EvInitialize "valkyrion"])
    end.
Proof.
  unfold initialize, try_except, ee_Initialize, ee_Authenticate, call, print,
    mbind, M_bind.
  destruct (initialize_reply srv (calls is_initialize tr)) as [[] | e].
  { by rewrite <- app_assoc. }
  destruct e as [msg | key | msg]; [| done | done].
  rewrite !calls_app. cbn [calls List.filter is_authenticate is_initialize length].
  rewrite !Nat.add_0_r.
  destruct (authenticate_reply srv (calls is_authenticate tr)) as [[] | e];
    [| by rewrite <- !app_assoc].
  rewrite !calls_app. cbn [calls List.filter is_initialize length].
  rewrite !Nat.add_0_r, Nat.add_1_r.
  destruct (initialize_reply srv (S (calls is_initialize tr))) as [[] | e];
    by rewrite <- !app_assoc.
Qed.

(** The trace of a bound computation is that of its second part when the
    first returns, and that of the first part otherwise. *)
Lemma bind_unfold {A B} (m : M A) (f : A -> M B) (tr : list event) :
  (m ≫= f) tr
  = match m tr with
    | (Returned a, tr') => f a tr'
    | (Raised e, tr') => (Raised e, tr')
    | (OutOfFuel, tr') => (OutOfFuel, tr')
    end.
Proof. reflexivity. Qed.

Lemma poll_frame (kind : event -> bool) (fuel : nat) (tr : list event) :
  outside_monitoring kind ->
  calls kind (poll srv fuel tr).2 = calls kind tr.
Proof.
  intros (Ha & Hs & Hp & Hz). revert tr.
  induction fuel as [| fuel IH]; intros tr; [done |].
  rewrite poll_unfold.
  destruct (active_reply srv (calls is_active tr)) as [[|] | e].
  - destruct (status_reply srv (calls is_status tr)) as [st | e].
    + destruct (st !! "state") as [state |].
      * rewrite IH, calls_app. unfold poll_round, calls. cbn [List.filter].
        by rewrite Ha, Hs, Hp, Hz, Nat.add_0_r.
      * cbn [snd]. rewrite calls_app. unfold calls. cbn [List.filter].
        by rewrite Ha, Hs, Nat.add_0_r.
    + cbn [snd]. rewrite calls_app. unfold calls. cbn [List.filter].
      by rewrite Ha, Hs, Nat.add_0_r.
  - cbn [snd]. rewrite calls_app. unfold calls. cbn [List.filter].
    by rewrite Ha, Nat.add_0_r.
  - cbn [snd]. rewrite calls_app. unfold calls. cbn [List.filter].
    by rewrite Ha, Nat.add_0_r.
Qed.

(** The report, by what the final status answer carries. *)
Lemma report_unfold (tr : list event) :
  report srv tr
  = match status_reply srv (calls is_status tr) with
    | Fail e => (Raised e, tr ++ [EvStatus])
    | Ok st =>
        match st !! "state" with
        | None => (Raised (KeyError "state"), tr ++ [EvStatus])
        | Some state =>
            if String.eqb state "COMPLETED" then
              (Returned (),
               tr ++ [EvStatus; EvPrint "Export COMPLETED successfully!";
                      EvPrint ("File should be in: gs://" +:+ BUCKET_NAME +:+ "/"
                               +:+ FILENAME +:+ ".tif")])
            else if String.eqb state "FAILED" then
              match st !! "error_message" with
              | Some msg =>
                  (Returned (),
                   tr ++ [EvStatus; EvPrint "Export FAILED.";
                          EvPrint ("Error message: " +:+ msg)])
              | None =>
                  (Raised (KeyError "error_message"),
                   tr ++ [EvStatus; EvPrint "Export FAILED."])
              end
            else
              (Returned (),
               tr ++ [EvStatus; EvPrint ("Task finished with state: " +:+ state)])
        end
    end.
Proof.
  unfold report, task_status, call, getitem, print, raise, mbind, M_bind, mret, M_ret.
  destruct (status_reply srv (calls is_status tr)) as [st | e]; [| done].
  destruct (st !! "state") as [state |]; [| done].
  destruct (String.eqb state "COMPLETED"); [by rewrite <- !app_assoc |].
  destruct (String.eqb state "FAILED"); [| by rewrite <- !app_assoc].
  destruct (st !! "error_message"); by rewrite <- !app_assoc.
Qed.

Lemma report_frame (kind : event -> bool) (tr : list event) :
  outside_monitoring kind ->
  calls kind (report srv tr).2 = calls kind tr.
Proof.
  intros (Ha & Hs & Hp & Hz). rewrite report_unfold.
  destruct (status_reply srv (calls is_status tr)) as [st | e].
  - destruct (st !! "state") as [state |].
    + destruct (String.eqb state "COMPLETED").
      * cbn [snd]. rewrite calls_app. unfold calls. cbn [List.filter].
        by rewrite Hs, !Hp, Nat.add_0_r.
      * destruct (String.eqb state "FAILED").
        -- destruct (st !! "error_message"); cbn [snd]; rewrite calls_app;
             unfold calls; cbn [List.filter]; by rewrite Hs, !Hp, Nat.add_0_r.
        -- cbn [snd]. rewrite calls_app. unfold calls. cbn [List.filter].
           by rewrite Hs, !Hp, Nat.add_0_r.
    + cbn [snd]. rewrite calls_app. unfold calls. cbn [List.filter].
      by rewrite Hs, Nat.add_0_r.
  - cbn [snd]. rewrite calls_app. unfold calls. cbn [List.filter].
    by rewrite Hs, Nat.add_0_r.
Qed.

(** Submission, by what the remote side answers to it. *)
Lemma monitor_unfold (fuel : nat) (tr : list event) :
  monitor srv fuel tr
  = match start_reply srv (calls is_start tr) with
    | Fail e => (Raised e, tr ++ [EvStart export_task])
    | Ok id =>
        (poll srv fuel;; report srv)
          (tr ++ [EvStart export_task; EvPrint ("Monitoring task: " +:+ id)])
    end.
Proof.
  unfold monitor, task_start, call, print.
  rewrite bind_unfold.
  destruct (start_reply srv (calls is_start tr)) as [id | e]; [| done].
  rewrite bind_unfold. by rewrite <- app_assoc.
Qed.

Lemma monitor_frame (kind : event -> bool) (fuel : nat) (tr : list event) :
  outside_monitoring kind ->
  calls kind (monitor srv fuel tr).2
  = (calls kind tr + if kind (EvStart export_task) then 1 else 0)%nat.
Proof.
  intros Hkind. pose proof Hkind as (Ha & Hs & Hp & Hz).
  rewrite monitor_unfold.
  destruct (start_reply srv (calls is_start tr)) as [id | e].
  - rewrite bind_unfold.
    pose proof (poll_frame kind fuel
      (tr ++ [EvStart export_task; EvPrint ("Monitoring task: " +:+ id)]) Hkind)
      as Hpoll.
    destruct (poll srv fuel _) as [[[] | e |] tr'] eqn:Hrun; cbn [snd] in Hpoll |- *.
    + rewrite (report_frame kind tr' Hkind), Hpoll, calls_app.
      unfold calls. cbn [List.filter]. rewrite Hp.
      by destruct (kind (EvStart export_task)).
    + rewrite Hpoll, calls_app. unfold calls. cbn [List.filter]. rewrite Hp.
      by destruct (kind (EvStart export_task)).
    + rewrite Hpoll, calls_app. unfold calls. cbn [List.filter]. rewrite Hp.
      by destruct (kind (EvStart export_task)).
  - cbn [snd]. rewrite calls_app. unfold calls. cbn [List.filter].
    by destruct (kind (EvStart export_task)).
Qed.

(** X1: in every run, whatever the remote side answers: initialization is
    called at most twice, authentication at most once and exactly when the
    first initialization raised the client's exception, and the export is
    submitted at most once. *)
Theorem main_call_bounds (fuel : nat) :
  (calls is_initialize (main srv fuel []).2 <= 2)%nat
  /\ (calls is_authenticate (main srv fuel []).2 <= 1)%nat
  /\ (calls is_start (main srv fuel []).2 <= 1)%nat
  /\ (calls is_authenticate (main srv fuel []).2 = 1%nat
      <-> exists msg, initialize_reply srv 0 = Fail (EEException msg))
  /\ (initialize_reply srv 0 = Ok () ->
      calls is_initialize (main srv fuel []).2 = 1%nat).
Proof.
  assert (Hi : outside_monitoring is_initialize) by done.
  assert (Ha : outside_monitoring is_authenticate) by done.
  assert (Hs : outside_monitoring is_start) by done.
  unfold main. rewrite bind_unfold, initialize_unfold.
  cbn [calls List.filter length].
  destruct (initialize_reply srv 0) as [[] | [msg | key | msg]].
  - rewrite bind_unfold. cbn [print app].
    rewrite !monitor_frame by done. cbn.
    repeat split; try lia. intros [msg [=]].
  - destruct (authenticate_reply srv 0) as [[] | e].
    + destruct (initialize_reply srv 1) as [[] | e].
      * rewrite bind_unfold. cbn [print app].
        rewrite !monitor_frame by done. cbn.
        repeat split; try lia; try done. by exists msg.
      * cbn. repeat split; try lia; try done. by exists msg.
    + cbn. repeat split; try lia; try done. by exists msg.
  - cbn. repeat split; try lia; try done. intros [m [=]].
  - cbn. repeat split; try lia; try done. intros [m [=]].
Qed.

End Paths.

Section Failures.
Context (srv : services).

(** X2: an exception of the first initialization that is not the client's class
    is not caught: the script ends with it and never authenticates. *)
Theorem other_exception_not_caught (fuel : nat) (e : exn) :
  initialize_reply srv 0 = Fail e ->
  (forall msg, e <> EEException msg) ->
  main srv fuel [] = (Raised e, [EvInitialize "valkyrion"]).
Proof.
  intros Hfirst Hclass. unfold main.
  rewrite bind_unfold, initialize_unfold. cbn [calls List.filter length].
  rewrite Hfirst. destruct e as [msg | key | msg]; [| done | done].
  by destruct (Hclass msg).
Qed.

(** X3: an exception of the interactive authentication is not caught either:
    the script ends with it and does not initialize again. *)
Theorem authenticate_failure_propagates (fuel : nat) (msg : string) (e : exn) :
  initialize_reply srv 0 = Fail (EEException msg) ->
  authenticate_reply srv 0 = Fail e ->
  main srv fuel []
  = (Raised e,
     [EvInitialize "valkyrion";
      EvPrint "Authentication needed. Running ee.Authenticate()...";
      EvAuthenticate]).
Proof.
  intros Hfirst Hauth. unfold main.
  rewrite bind_unfold, initialize_unfold. cbn [calls List.filter length].
  by rewrite Hfirst, Hauth.
Qed.

(** X4: a refused export request ends the script before any poll: the job is
    never asked whether it is active and nothing is reported. *)
Theorem start_failure_skips_polling (fuel : nat) (e : exn) :
  initialize_reply srv 0 = Ok () ->
  start_reply srv 0 = Fail e ->
  main srv fuel []
  = (Raised e,
     [EvInitialize "valkyrion";
      EvPrint "Google Earth Engine initialized successfully.";
      EvPrint "Image collection filtered and median composite created.";
      EvStart export_task]).
Proof.
  intros Hinit Hstart. unfold main.
  rewrite bind_unfold, initialize_unfold. cbn [calls List.filter length].
  rewrite Hinit, bind_unfold. cbn [print app].
  rewrite monitor_unfold. cbn [calls List.filter is_start length].
  by rewrite Hstart.
Qed.

(** X5: the loop ends with an exception only at a remote call that fails or at
    a status answer without a state: after some complete rounds, either the
    question "active?" fails, or the status call fails, or the status has no
    "state" key (a [KeyError]); nothing is printed and no sleep is made after
    the failing call. *)
Theorem poll_raises_only_on_failed_call (fuel : nat) (tr tr' : list event) (e : exn) :
  poll srv fuel tr = (Raised e, tr') ->
  exists n,
    (n < fuel)%nat
    /\ (forall k, (k < n)%nat ->
          active_reply srv (calls is_active tr + k) = Ok true)
    /\ ((active_reply srv (calls is_active tr + n) = Fail e
         /\ tr' = tr ++ poll_rounds_trace srv (calls is_status tr) n ++ [EvActive])
        \/ (active_reply srv (calls is_active tr + n) = Ok true
            /\ tr' = tr ++ poll_rounds_trace srv (calls is_status tr) n
                        ++ [EvActive; EvStatus]
            /\ (status_reply srv (calls is_status tr + n) = Fail e
                \/ exists st, status_reply srv (calls is_status tr + n) = Ok st
                     /\ st !! "state" = None /\ e = KeyError "state"))).
Proof.
  revert tr. induction fuel as [| fuel IH]; intros tr; [done |].
  rewrite poll_unfold.
  destruct (active_reply srv (calls is_active tr)) as [[|] | e0] eqn:Hact;
    [| done |].
  - destruct (status_reply srv (calls is_status tr)) as [st | e0] eqn:Hst.
    + destruct (st !! "state") as [state |] eqn:Hstate.
      * intros (n & Hn & Hbefore & Hcase)%IH.
        rewrite !calls_app, (proj1 (calls_poll_round state)),
          (proj1 (proj2 (calls_poll_round state))) in *.
        assert (Htrace : forall rest,
                  (tr ++ poll_round state)
                    ++ poll_rounds_trace srv (calls is_status tr + 1) n ++ rest
                  = tr ++ poll_rounds_trace srv (calls is_status tr) (S n) ++ rest).
        { intros rest. unfold poll_rounds_trace.
          cbn [seq fmap list_fmap concat].
          unfold state_of at 2. rewrite Hst, Hstate. cbn [default].
          by rewrite Nat.add_1_r, <- !app_assoc. }
        exists (S n). split; [lia |]. split.
        { intros [| k] Hk; [by rewrite Nat.add_0_r |].
          replace (calls is_active tr + S k)%nat
            with (calls is_active tr + 1 + k)%nat by lia.
          apply Hbefore. lia. }
        replace (calls is_active tr + S n)%nat
          with (calls is_active tr + 1 + n)%nat by lia.
        replace (calls is_status tr + S n)%nat
          with (calls is_status tr + 1 + n)%nat by lia.
        rewrite <- !Htrace.
        exact Hcase.
      * intros [= <- <-]. exists 0%nat. rewrite !Nat.add_0_r.
        split; [lia |]. split; [intros k Hk; lia |].
        right. split; [done |]. split; [done |]. right. by exists st.
    + intros [= <- <-]. exists 0%nat. rewrite !Nat.add_0_r.
      split; [lia |]. split; [intros k Hk; lia |].
      right. split; [done |]. split; [done |]. by left.
  - intros [= <- <-]. exists 0%nat. rewrite !Nat.add_0_r.
    split; [lia |]. split; [intros k Hk; lia |]. by left.
Qed.

(** X6: the report ends with an exception in three cases only: the status call
    fails; the status has no "state" key; or the state is "FAILED" and the
    status has no "error_message" key, in which case the failure line is
    already printed.  It never runs out of fuel. *)
Theorem report_raises_iff (tr tr' : list event) (e : exn) :
  (report srv tr = (Raised e, tr') <->
     (status_reply srv (calls is_status tr) = Fail e /\ tr' = tr ++ [EvStatus])
     \/ (exists st, status_reply srv (calls is_status tr) = Ok st
           /\ st !! "state" = None
           /\ e = KeyError "state" /\ tr' = tr ++ [EvStatus])
     \/ (exists st, status_reply srv (calls is_status tr) = Ok st
           /\ st !! "state" = Some "FAILED"
           /\ st !! "error_message" = None
           /\ e = KeyError "error_message"
           /\ tr' = tr ++ [EvStatus; EvPrint "Export FAILED."]))
  /\ (report srv tr).1 <> OutOfFuel.
Proof.
  rewrite report_unfold.
  destruct (status_reply srv (calls is_status tr)) as [st | e0].
  2: { split; [| done]. split.
       - intros [= <- <-]. by left.
       - intros [[[= ->] ->] | [(st & [=] & _) | (st & [=] & _)]]. done. }
  destruct (st !! "state") as [state |] eqn:Hstate.
  2: { split; [| done]. split.
       - intros [= <- <-]. right. left. by exists st.
       - intros [[[=] _] | [(st' & [= <-] & _ & -> & ->) | (st' & [= <-] & Hs & _)]];
           [done | congruence]. }
  destruct (String.eqb_spec state "COMPLETED") as [-> | Hnc].
  { split; [| done]. split; [done |].
    intros [[[=] _] | [(st' & [= <-] & Hs & _) | (st' & [= <-] & Hs & _)]];
      congruence. }
  destruct (String.eqb_spec state "FAILED") as [-> | Hnf].
  2: { split; [| done]. split; [done |].
       intros [[[=] _] | [(st' & [= <-] & Hs & _) | (st' & [= <-] & Hs & _)]];
         congruence. }
  destruct (st !! "error_message") as [msg |] eqn:Hmsg.
  - split; [| done]. split; [done |].
    intros [[[=] _] | [(st' & [= <-] & Hs & _) | (st' & [= <-] & _ & Hm & _)]];
      congruence.
  - split; [| done]. split.
    + intros [= <- <-]. right. right. by exists st.
    + intros [[[=] _] | [(st' & [= <-] & Hs & _) | (st' & [= <-] & _ & _ & -> & ->)]];
        [congruence | done].
Qed.

(** X7: a run whose job completes after [n] polls: the script initializes
    once, submits the export once, makes [n] rounds of the loop, reads the
    final status and prints the two success lines, the second naming the
    file in the bucket; it ends normally. *)
Theorem completed_run (id : string) (n fuel : nat) (st : gmap string string) :
  initialize_reply srv 0 = Ok () ->
  start_reply srv 0 = Ok id ->
  (forall k, exists st state,
     status_reply srv k = Ok st /\ st !! "state" = Some state) ->
  (forall k, (k < n)%nat -> active_reply srv k = Ok true) ->
  active_reply srv n = Ok false ->
  (n < fuel)%nat ->
  status_reply srv n = Ok st ->
  st !! "state" = Some "COMPLETED" ->
  main srv fuel []
  = (Returned (),
     [EvInitialize "valkyrion";
      EvPrint "Google Earth Engine initialized successfully.";
      EvPrint "Image collection filtered and median composite created.";
      EvStart export_task;
      EvPrint ("Monitoring task: " +:+ id)]
     ++ poll_rounds_trace srv 0 n
     ++ [EvActive; EvStatus;
         EvPrint "Export COMPLETED successfully!";
         EvPrint "File should be in: gs://valkyrion-satellite-data/bucharest-sentinel2.tif"]).
Proof.
  intros Hinit Hstart Hstatus Hactive Hend Hfuel Hst Hstate.
  unfold main.
  rewrite bind_unfold, initialize_unfold. cbn [calls List.filter length].
  rewrite Hinit, bind_unfold. cbn [print app].
  erewrite monitor_exit;
    [| exact Hstart | exact Hstatus | exact Hactive | exact Hend | exact Hfuel].
  rewrite report_unfold.
  rewrite !calls_app, (proj1 (proj2 (calls_rounds srv _ n))).
  cbn [calls List.filter is_status length Nat.add].
  rewrite Nat.add_0_r, Hst, Hstate. cbn [String.eqb Ascii.eqb Bool.eqb].
  by rewrite <- !app_assoc.
Qed.

End Failures.

(** ** More on the mask and the chain *)

(** X8: the mask never turns an invalid pixel valid: a pixel valid in the output
    was valid in the input, has a valid quality value there with bits 10 and
    11 clear; and the mask treats all bands alike: two bands valid at a
    position in the input are both kept or both masked there. *)
Theorem maskS2clouds_only_narrows (src : image Z) (out : image Q) :
  maskS2clouds src = Some out ->
  exists qa,
    find_band "QA60" src = Some qa
    /\ (forall name p, pixel_valid out name p = true ->
          pixel_valid src name p = true
          /\ band_mask qa p = true
          /\ Z.testbit (band_value qa p) 10 = false
          /\ Z.testbit (band_value qa p) 11 = false)
    /\ (forall name name' p,
          pixel_valid src name p = true -> pixel_valid src name' p = true ->
          pixel_valid out name p = pixel_valid out name' p).
Proof.
  intros Hout.
  destruct (find_band "QA60" src) as [qa |] eqn:Hqa;
    [| by rewrite (maskS2clouds_missing _ Hqa) in Hout].
  exists qa. split; [done |]. split.
  - intros name p. rewrite (maskS2clouds_pixel_valid _ _ _ name p Hqa Hout).
    rewrite !andb_true_iff, cloud_free_bits, andb_true_iff, !negb_true_iff.
    tauto.
  - intros name name' p Hv Hv'.
    rewrite !(maskS2clouds_pixel_valid _ _ _ _ p Hqa Hout). by rewrite Hv, Hv'.
Qed.

Lemma maskS2clouds_only_narrows_witness :
  exists qa,
    find_band "QA60" (flat_image 1 2 3 4 1024) = Some qa
    /\ (forall name p,
          pixel_valid (Image.divide
                         (Image.updateMask (flat_image 1 2 3 4 1024)
                            (cloud_mask [("QA60", flat_band 1024)])) 10000)
            name p = true ->
          pixel_valid (flat_image 1 2 3 4 1024) name p = true
          /\ band_mask qa p = true
          /\ Z.testbit (band_value qa p) 10 = false
          /\ Z.testbit (band_value qa p) 11 = false)
    /\ (forall name name' p,
          pixel_valid (flat_image 1 2 3 4 1024) name p = true ->
          pixel_valid (flat_image 1 2 3 4 1024) name' p = true ->
          pixel_valid (Image.divide
                         (Image.updateMask (flat_image 1 2 3 4 1024)
                            (cloud_mask [("QA60", flat_band 1024)])) 10000)
            name p
          = pixel_valid (Image.divide
                           (Image.updateMask (flat_image 1 2 3 4 1024)
                              (cloud_mask [("QA60", flat_band 1024)])) 10000)
              name' p).
Proof.
  exact (maskS2clouds_only_narrows (flat_image 1 2 3 4 1024) _ eq_refl).
Defined.

(** X9: the two bit tests of the mask amount to one test against the combined
    mask 3072: no other bit of the quality value has any influence. *)
Theorem cloud_free_single_test (q : Z) :
  Z.lor cloudBitMask cirrusBitMask = 3072
  /\ cloud_free q = (Z.land q (Z.lor cloudBitMask cirrusBitMask) =? 0)
  /\ cloud_free (Z.land q 3072) = cloud_free q
  /\ (forall q', Z.land q' 3072 = Z.land q 3072 -> cloud_free q' = cloud_free q).
Proof.
  assert (Htest : forall x, cloud_free x
            = (Z.land x (Z.lor cloudBitMask cirrusBitMask) =? 0)).
  { intros x. rewrite cloud_free_bits, Z.land_lor_distr_r.
    unfold cloudBitMask, cirrusBitMask. rewrite !land_single_bit by lia.
    by destruct (Z.testbit x 10), (Z.testbit x 11). }
  split; [reflexivity |]. split; [apply Htest |].
  assert (Hsame : forall q', Z.land q' 3072 = Z.land q 3072 ->
            cloud_free q' = cloud_free q).
  { intros q' Heq. rewrite !Htest.
    change (Z.lor cloudBitMask cirrusBitMask) with 3072. by rewrite Heq. }
  split; [| exact Hsame].
  apply Hsame. rewrite <- Z.land_assoc. reflexivity.
Qed.

Lemma maskS2clouds_pixel_value (src : image Z) (out : image Q)
    (name : string) (p : pixel) :
  maskS2clouds src = Some out ->
  pixel_value out name p = clear_value src name p.
Proof.
  intros Hout. unfold clear_value, clear_pixel, pixel_value.
  destruct (find_band "QA60" src) as [qa |] eqn:Hqa;
    [| by rewrite (maskS2clouds_missing _ Hqa) in Hout].
  rewrite (maskS2clouds_find_band _ _ _ name Hqa Hout).
  destruct (find_band name src) as [b |]; cbn.
  - by destruct (band_mask b p), (band_mask qa p), (cloud_free (band_value qa p)).
  - by destruct (band_mask qa p && cloud_free (band_value qa p)).
Qed.

(** X10: the script does not clamp: a value of the output is the input value
    over 10000, and it lies in the range 0 to 1 exactly when the input value
    lies between 0 and 10000. *)
Theorem rescaled_value_range (src : image Z) (out : image Q)
    (name : string) (p : pixel) (v' : Q) :
  maskS2clouds src = Some out ->
  pixel_value out name p = Some v' ->
  exists v : Z,
    pixel_value src name p = Some v
    /\ (v' == inject_Z v / 10000)%Q
    /\ (0 <= v <= 10000 <-> (0 <= v')%Q /\ (v' <= 1)%Q).
Proof.
  intros Hout. rewrite (maskS2clouds_pixel_value _ _ name p Hout).
  unfold clear_value. destruct (clear_pixel src p); [| done].
  destruct (pixel_value src name p) as [v |]; [| done].
  cbn. intros [= <-]. exists v. split; [done |]. split; [reflexivity |].
  unfold Px.divide, Qle, Qdiv, Qmult, Qinv, inject_Z. cbn. lia.
Qed.

Lemma rescaled_value_range_witness :
  exists v : Z,
    pixel_value (flat_image 1 2 12000 4 0) "B4" (0, 0) = Some v
    /\ (Px.divide 12000 10000 == inject_Z v / 10000)%Q
    /\ (0 <= v <= 10000
        <-> (0 <= Px.divide 12000 10000)%Q /\ (Px.divide 12000 10000 <= 1)%Q).
Proof.
  exact (rescaled_value_range (flat_image 1 2 12000 4 0) _ "B4" (0, 0)
           (Px.divide 12000 10000) eq_refl eq_refl).
Defined.

Lemma mapM_bind_fuse {A B C} (f : A -> option B) (g : B -> option C) (l : list A) :
  mapM f l ≫= mapM g = mapM (fun x => f x ≫= g) l.
Proof.
  induction l as [| x l IH]; [done |].
  cbn. destruct (f x) as [y |]; [| done]. cbn.
  rewrite <- IH.
  destruct (mapM f l) as [k |]; cbn; [done |].
  by destruct (g y).
Qed.

Lemma select_find_band {V} (img sel : image V) (names : list string) (name : string) :
  Image.select img names = Some sel ->
  name ∈ names ->
  find_band name sel = find_band name img.
Proof.
  revert sel. induction names as [| n names IH]; intros sel;
    [by intros _ ?%elem_of_nil |].
  cbn. destruct (find_band n img) as [b |] eqn:Hb; [| done].
  destruct (Image.select img names) as [bs |]; [| done].
  intros [= <-] Hin. cbn.
  destruct (String.eqb_spec n name) as [-> | Hne]; [done |].
  apply IH; [done |].
  apply elem_of_cons in Hin as [-> | Hin]; [done | exact Hin].
Qed.

Lemma select_is_Some {V} (img : image V) (names : list string) :
  is_Some (Image.select img names)
  <-> Forall (fun n => is_Some (find_band n img)) names.
Proof.
  induction names as [| n names IH]; [by split; [constructor | eexists] |].
  rewrite Forall_cons, <- IH. cbn.
  destruct (find_band n img) as [b |]; [| split; [by intros [? ?] | by intros [[? ?] _]]].
  destruct (Image.select img names) as [bs |].
  - split; [intros _; split; by eexists | by eexists].
  - split; [by intros [? ?] | by intros [_ [? ?]]].
Qed.

Lemma maskS2clouds_is_Some (img : image Z) :
  is_Some (maskS2clouds img) <-> is_Some (find_band "QA60" img).
Proof.
  destruct (find_band "QA60" img) as [qa |] eqn:Hqa.
  - rewrite (maskS2clouds_unfold _ _ Hqa). split; by eexists.
  - rewrite (maskS2clouds_missing _ Hqa). split; by intros [? ?].
Qed.

(** One catalog image passes lines 68 and 73 exactly when it has the
    quality band and the four selected bands. *)
Lemma process_scene_is_Some (s : scene Z) :
  is_Some (process_scene s)
  <-> forall name, name ∈ "QA60" :: bands ->
        is_Some (find_band name (scene_image s)).
Proof.
  unfold process_scene. rewrite fmap_is_Some.
  destruct (find_band "QA60" (scene_image s)) as [qa |] eqn:Hqa.
  - pose proof (maskS2clouds_unfold _ _ Hqa) as Hm. rewrite Hm. cbn [mbind option_bind].
    rewrite select_is_Some, Forall_forall. split.
    + intros Hall name [-> | Hin]%elem_of_cons; [by rewrite Hqa |].
      specialize (Hall name Hin).
      rewrite (maskS2clouds_find_band _ _ _ name Hqa Hm) in Hall.
      by apply fmap_is_Some in Hall.
    + intros Hall name Hin.
      rewrite (maskS2clouds_find_band _ _ _ name Hqa Hm).
      apply fmap_is_Some, Hall. by apply list_elem_of_further.
  - rewrite (maskS2clouds_missing _ Hqa). cbn. split; [by intros [? ?] |].
    intros Hall. destruct (Hall "QA60") as [qa Hqa']; [apply list_elem_of_here |].
    congruence.
Qed.

(** What lines 68 and 73 make of one catalog image. *)
Lemma process_scene_Some (s : scene Z) (s' : scene Q) :
  process_scene s = Some s' ->
  scene_props s' = scene_props s
  /\ band_names (scene_image s') = bands
  /\ forall name p, name ∈ bands ->
       pixel_value (scene_image s') name p = clear_value (scene_image s) name p.
Proof.
  unfold process_scene.
  destruct (maskS2clouds (scene_image s)) as [out |] eqn:Hout; [| done].
  cbn [mbind option_bind].
  destruct (Image.select out bands) as [sel |] eqn:Hsel; [| done].
  cbn. intros [= <-]. cbn. split; [done |].
  split; [by eapply select_band_names |].
  intros name p Hin. rewrite <- (maskS2clouds_pixel_value _ _ name p Hout).
  unfold pixel_value. by rewrite (select_find_band _ _ _ name Hsel Hin).
Qed.

Section ChainExtras.
Context `{Platform}.

(** The chain is the per-image processing applied to every filtered image. *)
Lemma s2_collection_fused : s2_collection = mapM process_scene s2_filtered.
Proof.
  unfold s2_collection, s2_masked, ImageCollection.select, ImageCollection.map.
  rewrite mapM_bind_fuse. apply mapM_ext. intros s. unfold process_scene.
  by destruct (maskS2clouds (scene_image s)).
Qed.

(** X11: the chain evaluates exactly when every image that passes the three
    filters has the quality band QA60 and the bands B4, B3, B2 and B8; an
    image the filters reject never makes it fail. *)
Theorem s2_collection_defined_iff :
  is_Some s2_collection
  <-> Forall (fun s => forall name, name ∈ "QA60" :: bands ->
                is_Some (find_band name (scene_image s))) s2_filtered.
Proof.
  rewrite s2_collection_fused, mapM_is_Some.
  apply Forall_proper; [| done]. intros s. apply process_scene_is_Some.
Qed.

Lemma s2_collection_Forall2 (c : collection Q) :
  s2_collection = Some c ->
  Forall2 (fun raw fin =>
             scene_props fin = scene_props raw
             /\ band_names (scene_image fin) = bands
             /\ forall name p, name ∈ bands ->
                  pixel_value (scene_image fin) name p
                  = clear_value (scene_image raw) name p)
    s2_filtered c.
Proof.
  rewrite s2_collection_fused. intros Hc%mapM_Some.
  eapply Forall2_impl; [exact Hc |]. intros raw fin. apply process_scene_Some.
Qed.

(** X12: when the chain evaluates, the final collection has one image for every
    image that passed the filters, in the same order and with the same
    metadata; each has exactly the four selected bands, and each of its
    pixels is the catalog value over 10000 where the catalog pixel is valid
    and its quality bits are clear, and no-data elsewhere. *)
Theorem s2_collection_pixels (c : collection Q) :
  s2_collection = Some c ->
  length c = length s2_filtered
  /\ scene_props <$> c = scene_props <$> s2_filtered
  /\ forall i raw fin,
       s2_filtered !! i = Some raw -> c !! i = Some fin ->
       band_names (scene_image fin) = bands
       /\ forall name p, name ∈ bands ->
            pixel_value (scene_image fin) name p
            = clear_value (scene_image raw) name p.
Proof.
  intros Hall%s2_collection_Forall2.
  split; [symmetry; by eapply Forall2_length |].
  split.
  - induction Hall as [| raw fin l l' (Hp & _) _ IH]; [done |].
    cbn. by rewrite Hp, IH.
  - intros i raw fin Hraw Hfin.
    destruct (Forall2_lookup_lr _ _ _ _ _ _ Hall Hraw Hfin) as (_ & Hb & Hpx).
    by split.
Qed.

(** X13: the composite read from the catalog: at every selected band and
    position it is the median of the catalog values over 10000, taken over
    the filtered images whose pixel is valid and clear there. *)
Theorem median_image_from_catalog (composite : image Q) (name : string) (p : pixel) :
  median_image = Some composite ->
  name ∈ bands ->
  pixel_value composite name p
  = median_of (omap (fun raw => clear_value (scene_image raw) name p) s2_filtered).
Proof.
  unfold median_image.
  destruct s2_collection as [c |] eqn:Hc; [| done].
  cbn. intros [= <-] Hin.
  pose proof (s2_collection_Forall2 c Hc) as Hall.
  rewrite median_pixel_value.
  - f_equal. unfold ImageCollection.valid_values. clear Hc.
    induction Hall as [| raw fin l l' (_ & _ & Hpx) _ IH]; [done |].
    cbn [omap list_omap]. by rewrite (Hpx name p Hin), IH.
  - intros first Hfirst. destruct Hall as [| raw fin l l' (_ & Hb & _) _]; [done |].
    injection Hfirst as <-. by rewrite Hb.
Qed.

End ChainExtras.

(** ** Worked runs *)

Lemma other_exception_not_caught_witness :
  main no_credentials_services 3 []
  = (Raised (OtherError "DefaultCredentialsError"), [EvInitialize "valkyrion"]).
Proof.
  apply (other_exception_not_caught no_credentials_services 3);
    [reflexivity | intros msg; discriminate].
Defined.

Lemma authenticate_failure_propagates_witness :
  main auth_refused_services 3 []
  = (Raised (OtherError "authorization cancelled"),
     [EvInitialize "valkyrion";
      EvPrint "Authentication needed. Running ee.Authenticate()...";
      EvAuthenticate]).
Proof.
  exact (authenticate_failure_propagates auth_refused_services 3
           "not signed up" _ eq_refl eq_refl).
Defined.

Lemma start_failure_skips_polling_witness :
  main rejecting_services 3 []
  = (Raised (EEException "bucket not found"),
     [EvInitialize "valkyrion";
      EvPrint "Google Earth Engine initialized successfully.";
      EvPrint "Image collection filtered and median composite created.";
      EvStart export_task]).
Proof.
  exact (start_failure_skips_polling rejecting_services 3 _ eq_refl eq_refl).
Defined.

(** The status call fails in the second round: one complete round, then
    the question and the failing status call, and nothing after them. *)
Lemma poll_raises_only_on_failed_call_witness :
  exists n,
    (n < 5)%nat
    /\ (forall k, (k < n)%nat -> active_reply outage_services (0 + k) = Ok true)
    /\ ((active_reply outage_services (0 + n) = Fail (OtherError "connection reset")
         /\ [EvActive; EvStatus; EvPrint "Task status: RUNNING"; EvSleep 10;
             EvActive; EvStatus]
            = [] ++ poll_rounds_trace outage_services 0 n ++ [EvActive])
        \/ (active_reply outage_services (0 + n) = Ok true
            /\ [EvActive; EvStatus; EvPrint "Task status: RUNNING"; EvSleep 10;
                EvActive; EvStatus]
               = [] ++ poll_rounds_trace outage_services 0 n ++ [EvActive; EvStatus]
            /\ (status_reply outage_services (0 + n)
                = Fail (OtherError "connection reset")
                \/ exists st, status_reply outage_services (0 + n) = Ok st
                     /\ st !! "state" = None
                     /\ OtherError "connection reset" = KeyError "state"))).
Proof.
  exact (poll_raises_only_on_failed_call outage_services 5 [] _ _ eq_refl).
Defined.

Lemma completing_job_statuses (k : nat) :
  exists st state,
    status_reply completing_job_services k = Ok st /\ st !! "state" = Some state.
Proof.
  unfold completing_job_services, status_reply. destruct (k <? 1)%nat.
  - exists {["state" := "RUNNING"]}, "RUNNING".
    split; [reflexivity | by vm_compute].
  - exists {["state" := "COMPLETED"]}, "COMPLETED".
    split; [reflexivity | by vm_compute].
Qed.

Lemma completing_job_active (k : nat) :
  (k < 1)%nat -> active_reply completing_job_services k = Ok true.
Proof.
  intros Hk. unfold completing_job_services, active_reply.
  by rewrite (proj2 (Nat.ltb_lt k 1) Hk).
Qed.

Lemma completed_run_witness :
  main completing_job_services 2 []
  = (Returned (),
     [EvInitialize "valkyrion";
      EvPrint "Google Earth Engine initialized successfully.";
      EvPrint "Image collection filtered and median composite created.";
      EvStart export_task;
      EvPrint "Monitoring task: T1";
      EvActive; EvStatus; EvPrint "Task status: RUNNING"; EvSleep 10;
      EvActive; EvStatus;
      EvPrint "Export COMPLETED successfully!";
      EvPrint "File should be in: gs://valkyrion-satellite-data/bucharest-sentinel2.tif"]).
Proof.
  exact (completed_run completing_job_services "T1" 1%nat 2%nat
           {["state" := "COMPLETED"]}
           eq_refl eq_refl completing_job_statuses completing_job_active eq_refl
           (Nat.lt_succ_diag_r 1) eq_refl eq_refl).
Defined.

(** The acquisition without a quality band is rejected by the cloud-cover
    filter, so the chain evaluates. *)
Lemma s2_collection_defined_iff_witness :
  is_Some (@s2_collection mixed_platform).
Proof.
  apply (s2_collection_defined_iff (H:=mixed_platform)).
  assert (Hkept : @s2_filtered mixed_platform = sample_catalog)
    by (vm_compute; reflexivity).
  rewrite Hkept. unfold sample_catalog.
  repeat constructor;
    intros name Hin; cbn [scene_image];
    repeat (apply elem_of_cons in Hin as [-> | Hin]; [by eexists |]);
    by apply elem_of_nil in Hin.
Defined.

Lemma s2_collection_pixels_witness :
  length sample_collection = length (@s2_filtered sample_platform).
Proof.
  assert (Hc : @s2_collection sample_platform = Some sample_collection)
    by (vm_compute; reflexivity).
  exact (proj1 (s2_collection_pixels (H:=sample_platform) sample_collection Hc)).
Defined.

Lemma median_image_from_catalog_witness :
  pixel_value (ImageCollection.median sample_collection) "B4" (0, 0)
  = median_of
      (omap (fun raw => clear_value (scene_image raw) "B4" (0, 0))
         (@s2_filtered sample_platform)).
Proof.
  assert (Hm : @median_image sample_platform
               = Some (ImageCollection.median sample_collection))
    by (vm_compute; reflexivity).
  assert (Hb : "B4" ∈ bands) by apply list_elem_of_here.
  exact (median_image_from_catalog (H:=sample_platform) _ "B4" (0, 0) Hm Hb).
Defined.
